(** * Logbook-Maker: page numbering and watermarking of PDF files

    A shallow embedding of [src/logbook_maker/processor.py]:
    [annotate_pdf] and [_build_overlay_page], together with the parts of
    the libraries they call (the reportlab canvas, the pages of pypdf,
    [str.format], [pathlib]) that the properties below depend on.

    Conventions of the embedding.
    - Python integers are [Z].
    - Lengths are in points.  The source computes them in binary floating
      point; here they are exact rationals ([Q]), read with the arithmetic
      the float operations approximate.  Equalities between lengths are
      stated with [==] ([Qeq]).
    - Exceptions are values of [exn]; code that can raise returns
      [exn + A], and code that also touches the file system runs in the
      monad [M], whose state survives a raised exception. *)

From Stdlib Require Import ZArith QArith Qminmax String Ascii List Lia.
From stdpp Require Import base option list gmap strings pretty.
Import ListNotations.

Local Open Scope Z_scope.

(** ** Exceptions *)

Inductive exn : Type :=
| FileNotFoundError (msg : string)
| IsADirectoryError
| NotADirectoryError
| FileExistsError
| PdfReadError
| ValueError (msg : string)
| KeyError (key : string)
| IndexError (msg : string)
| OutsideFormatFragment (field : string).

(** ** The reportlab canvas *)

Module Canvas.

Record Color : Type :=
  mkColor { red : Q; green : Q; blue : Q; alpha : Q }.

(** [colors.black] *)
Definition black : Color := mkColor 0 0 0 1.

(** Which point of the string sits on the given coordinates:
    [drawString], [drawCentredString], [drawRightString]. *)
Inductive anchor : Type := AnchorStart | AnchorMiddle | AnchorEnd.

(** Changes of the coordinate system; [Rotate theta] turns it by [theta]
    degrees counter-clockwise. *)
Inductive transform : Type :=
| Translate (dx dy : Q)
| Rotate (theta : Q).

(** The graphics state that [saveState] and [restoreState] push and
    pop.  [ctm] lists the transformations in force, innermost first. *)
Record gstate : Type :=
  mkGstate { font_name : string; font_size : Q;
             fill_color : Color; ctm : list transform }.

(** One string painted on a page, with the state it was painted in. *)
Record text_item : Type :=
  mkText { text : string; text_anchor : anchor;
           at_x : Q; at_y : Q; painted_with : gstate }.

Record canvas : Type :=
  mkCanvas { pagesize : Q * Q;
             cur : gstate;
             saved : list gstate;
             code : list text_item;
             finished : list (Q * Q * list text_item) }.

Definition initial_gstate : gstate :=
  mkGstate "Helvetica" 12 black [].

(** [canvas.Canvas(packet, pagesize=(w, h))] *)
Definition new (size : Q * Q) : canvas :=
  mkCanvas size initial_gstate [] [] [].

Definition with_cur (f : gstate -> gstate) (c : canvas) : canvas :=
  mkCanvas (pagesize c) (f (cur c)) (saved c) (code c) (finished c).

Definition setFont (name : string) (size : Q) : canvas -> canvas :=
  with_cur (fun g => mkGstate name size (fill_color g) (ctm g)).

Definition setFillColor (col : Color) : canvas -> canvas :=
  with_cur (fun g => mkGstate (font_name g) (font_size g) col (ctm g)).

Definition translate (dx dy : Q) : canvas -> canvas :=
  with_cur (fun g => mkGstate (font_name g) (font_size g) (fill_color g)
                              (Translate dx dy :: ctm g)).

Definition rotate (theta : Q) : canvas -> canvas :=
  with_cur (fun g => mkGstate (font_name g) (font_size g) (fill_color g)
                              (Rotate theta :: ctm g)).

Definition paint (a : anchor) (x y : Q) (s : string) (c : canvas) : canvas :=
  mkCanvas (pagesize c) (cur c) (saved c)
           (code c ++ [mkText s a x y (cur c)]) (finished c).

Definition drawRightString : Q -> Q -> string -> canvas -> canvas :=
  paint AnchorEnd.

Definition drawCentredString : Q -> Q -> string -> canvas -> canvas :=
  paint AnchorMiddle.

Definition saveState (c : canvas) : canvas :=
  mkCanvas (pagesize c) (cur c) (cur c :: saved c) (code c) (finished c).

(** Popping an empty stack raises. *)
Definition restoreState (c : canvas) : exn + canvas :=
  match saved c with
  | [] => inl (IndexError "pop from empty list")
  | g :: rest =>
      inr (mkCanvas (pagesize c) g rest (code c) (finished c))
  end.

(** [showPage] closes the current page and starts a fresh one. *)
Definition showPage (c : canvas) : canvas :=
  mkCanvas (pagesize c) initial_gstate []
           [] (finished c ++ [(pagesize c, code c)]).

(** [save] closes the page under construction, if anything was drawn on
    it, and yields the pages of the document. *)
Definition save (c : canvas) : list (Q * Q * list text_item) :=
  finished (match code c with [] => c | _ :: _ => showPage c end).

End Canvas.

(** ** Pages *)

(** A page as the program sees it: its media box and what is painted on
    it, in painting order. *)
Record page : Type :=
  mkPage { mediabox_width : Q; mediabox_height : Q;
           contents : list Canvas.text_item }.

(** [page.merge_page(overlay)]: the overlay is painted over the page; the
    media box stays. *)
Definition merge_page (p overlay : page) : page :=
  mkPage (mediabox_width p) (mediabox_height p)
         (contents p ++ contents overlay).

Definition newline : string := String (ascii_of_nat 10) EmptyString.

(** [page.extract_text()] *)
Definition extract_text (p : page) : string :=
  String.concat newline (map Canvas.text (contents p)).

(** [needle in hay] on strings. *)
Fixpoint str_in (needle hay : string) : bool :=
  if String.prefix needle hay then true
  else match hay with
       | EmptyString => false
       | String _ rest => str_in needle rest
       end.

(** ** Rendering an overlay *)

(** [reportlab.lib.units.inch] *)
Definition inch : Q := 72.

Definition bind_exn {A B : Type} (x : exn + A) (f : A -> exn + B) : exn + B :=
  match x with
  | inl e => inl e
  | inr a => f a
  end.

Definition _build_overlay_page
    (width height : Q) (page_label copy_label watermark_text : string)
  : exn + page :=
  let c := Canvas.new (width, height) in
  let margin := (0.6 * inch)%Q in
  (* Copy number at the top-right corner. *)
  let c := Canvas.setFont "Helvetica-Bold" 14 c in
  let c := Canvas.setFillColor Canvas.black c in
  let c := Canvas.drawRightString (width - margin) (height - margin)
                                  copy_label c in
  (* Page number at the bottom centre. *)
  let c := Canvas.setFont "Helvetica" 12 c in
  let c := Canvas.drawCentredString (width / 2) (margin / 2) page_label c in
  (* Watermark diagonally across the page. *)
  let c := Canvas.saveState c in
  let c := Canvas.setFillColor (Canvas.mkColor 0.7 0.7 0.7 0.2) c in
  let c := Canvas.setFont "Helvetica-Bold" (Qmin width height * 0.1) c in
  let c := Canvas.translate (width / 2) (height / 2) c in
  let c := Canvas.rotate 45 c in
  let c := Canvas.drawCentredString 0 0 watermark_text c in
  bind_exn (Canvas.restoreState c) (fun c =>
  match Canvas.save c with
  | [] => inl (IndexError "sequence index out of range")
  | (w, h, items) :: _ => inr (mkPage w h items)
  end).

Arguments _build_overlay_page : simpl never.

(** ** [str.format] with keyword arguments only

    The format-string scanner of the Python runtime, for the calls
    [template.format(name=value, ...)] of the program: literal text, the
    doubled-brace escapes, and replacement fields holding a plain name.
    A field that uses a conversion (exclamation mark), a format
    specification (colon), attribute or index access (dot, square
    bracket), or a character outside ASCII is outside the
    embedded fragment: the scanner stops there with
    [OutsideFormatFragment], which stands for no exception of Python. *)

Module Format.

Inductive value : Type :=
| VInt (n : Z)
| VStr (s : string).

(** [str(v)], which formatting with an empty specification yields. *)
Definition str (v : value) : string :=
  match v with
  | VInt n => pretty n
  | VStr s => s
  end.

Definition is_digit (c : ascii) : bool :=
  let n := nat_of_ascii c in ((48 <=? n) && (n <=? 57))%nat.

Fixpoint all_digits (s : string) : bool :=
  match s with
  | EmptyString => true
  | String c rest => is_digit c && all_digits rest
  end.

Fixpoint decimal_value (acc : Z) (s : string) : Z :=
  match s with
  | EmptyString => acc
  | String c rest =>
      decimal_value (10 * acc + (Z.of_nat (nat_of_ascii c) - 48)) rest
  end.

Definition PY_SSIZE_T_MAX : Z := 2 ^ 63 - 1.

(** The object a replacement field names.  No positional argument is
    ever passed, so an empty or numeric field name cannot be served. *)
Definition get_field (kwargs : gmap string value) (name : string)
  : exn + value :=
  if all_digits name then
    let index := decimal_value 0 name in
    if PY_SSIZE_T_MAX <? index
    then inl (ValueError "Too many decimal digits in format string")
    else inl (IndexError
                ("Replacement index " +:+ pretty index
                 +:+ " out of range for positional args tuple"))
  else
    match kwargs !! name with
    | Some v => inr v
    | None => inl (KeyError name)
    end.

(** Characters that end the embedded fragment inside a field. *)
Definition leaves_fragment (c : ascii) : bool :=
  (c =? "!")%char || (c =? ":")%char || (c =? ".")%char
  || (c =? "[")%char || (128 <=? nat_of_ascii c)%nat.

Inductive mode : Type :=
| Text                                   (* literal text *)
| Closing                                (* just read a brace that closes *)
| Field (fresh : bool) (name : string).  (* inside a field; [fresh]: the
                                            opening brace was the last
                                            character read *)

Definition emit (s : string) (r : exn + string) : exn + string :=
  match r with
  | inl e => inl e
  | inr out => inr (s +:+ out)
  end.

Fixpoint scan (kwargs : gmap string value) (m : mode) (s : string)
  : exn + string :=
  match m, s with
  | Text, EmptyString => inr EmptyString
  | Text, String c rest =>
      if (c =? "{")%char then scan kwargs (Field true EmptyString) rest
      else if (c =? "}")%char then scan kwargs Closing rest
      else emit (String c EmptyString) (scan kwargs Text rest)
  | Closing, EmptyString =>
      inl (ValueError "Single '}' encountered in format string")
  | Closing, String c rest =>
      if (c =? "}")%char then emit "}" (scan kwargs Text rest)
      else inl (ValueError "Single '}' encountered in format string")
  | Field fresh name, EmptyString =>
      inl (ValueError
             (if fresh then "Single '{' encountered in format string"
              else "expected '}' before end of string"))
  | Field fresh name, String c rest =>
      if (c =? "{")%char then
        if fresh then emit "{" (scan kwargs Text rest)
        else inl (ValueError "unexpected '{' in field name")
      else if (c =? "}")%char then
        match get_field kwargs name with
        | inl e => inl e
        | inr v => emit (str v) (scan kwargs Text rest)
        end
      else if leaves_fragment c then
        inl (OutsideFormatFragment (name +:+ String c EmptyString))
      else scan kwargs (Field false (name +:+ String c EmptyString)) rest
  end.

(** [template.format] applied to keyword arguments [kwargs]. *)
Definition format (template : string) (kwargs : gmap string value)
  : exn + string :=
  scan kwargs Text template.

End Format.

(** ** The file system and the monad of the program *)

Inductive file_data : Type :=
| PdfFile (pages : list page)      (* a well-formed PDF document *)
| RawFile (bytes : string).        (* anything else *)

Inductive node : Type :=
| Dir
| File (data : file_data).

(** A path is the list of its components below the root. *)
Abbreviation path := (list string).

(** What the program does to pages and files, in the order it does it. *)
Inductive event : Type :=
| EvMergePage (index : nat)
| EvAddPage (index : nat)
| EvMkdir (p : path)
| EvOpenWrite (p : path)
| EvWrite (p : path).

Record world : Type :=
  mkWorld { fs : gmap path node; log : list event }.

(** A computation may change the world and then raise: the changes made
    before the exception stay. *)
Definition M (A : Type) : Type := world -> (exn + A) * world.

Definition ret {A : Type} (a : A) : M A := fun w => (inr a, w).

Definition raise {A : Type} (e : exn) : M A := fun w => (inl e, w).

Definition lift {A : Type} (x : exn + A) : M A := fun w => (x, w).

Definition bind {A B : Type} (m : M A) (f : A -> M B) : M B :=
  fun w =>
    match m w with
    | (inl e, w') => (inl e, w')
    | (inr a, w') => f a w'
    end.

Notation "'let*' x ':=' c 'in' k" :=
  (bind c (fun x => k))
  (at level 10, x pattern, c at level 100, k at level 200).

Notation "c ';;' k" :=
  (bind c (fun _ => k))
  (at level 100, k at level 200, right associativity).

Definition get_fs : M (gmap path node) := fun w => (inr (fs w), w).

Definition put_fs (m : gmap path node) : M unit :=
  fun w => (inr tt, mkWorld m (log w)).

Definition record (e : event) : M unit :=
  fun w => (inr tt, mkWorld (fs w) (log w ++ [e])).

(** The root always exists and is a directory. *)
Definition lookup_node (m : gmap path node) (p : path) : option node :=
  match p with
  | [] => Some Dir
  | _ :: _ => m !! p
  end.

Definition is_dir (m : gmap path node) (p : path) : bool :=
  match lookup_node m p with
  | Some Dir => true
  | _ => false
  end.

(** [Path.exists] *)
Definition path_exists (p : path) : M bool :=
  let* m := get_fs in
  ret (match lookup_node m p with Some _ => true | None => false end).

(** [Path.parent]; the root is its own parent. *)
Definition parent (p : path) : path := removelast p.

(** [str(path)] *)
Definition path_str (p : path) : string :=
  "/" +:+ String.concat "/" p.

Definition try_except {A : Type} (m : M A) (handler : exn -> M A) : M A :=
  fun w =>
    match m w with
    | (inl e, w') => handler e w'
    | (inr a, w') => (inr a, w')
    end.

(** [os.mkdir] *)
Definition os_mkdir (p : path) : M unit :=
  let* m := get_fs in
  match lookup_node m p with
  | Some _ => raise FileExistsError
  | None =>
      match lookup_node m (parent p) with
      | None => raise (FileNotFoundError (path_str p))
      | Some (File _) => raise NotADirectoryError
      | Some Dir => record (EvMkdir p) ;; put_fs (<[p := Dir]> m)
      end
  end.

(** [Path.mkdir(parents=False, exist_ok=True)] *)
Definition mkdir_exist_ok (p : path) : M unit :=
  try_except (os_mkdir p) (fun e =>
    match e with
    | FileNotFoundError _ => raise e
    | _ => let* m := get_fs in if is_dir m p then ret tt else raise e
    end).

(** [Path.mkdir(parents=True, exist_ok=True)], on the path read from its
    last component up, so that the parent is a tail. *)
Fixpoint mkdir_parents_rev (rp : list string) : M unit :=
  try_except (os_mkdir (rev rp)) (fun e =>
    match e with
    | FileNotFoundError _ =>
        match rp with
        | [] => raise e
        | _ :: rparent =>
            mkdir_parents_rev rparent ;; mkdir_exist_ok (rev rp)
        end
    | _ => let* m := get_fs in if is_dir m (rev rp) then ret tt else raise e
    end).

Definition mkdir_parents (p : path) : M unit := mkdir_parents_rev (rev p).

(** [path.open("wb")]: the file is created, or cut to length zero. *)
Definition open_wb (p : path) : M unit :=
  let* m := get_fs in
  match lookup_node m p with
  | Some Dir => raise IsADirectoryError
  | _ =>
      match lookup_node m (parent p) with
      | Some Dir =>
          record (EvOpenWrite p) ;; put_fs (<[p := File (RawFile "")]> m)
      | Some (File _) => raise NotADirectoryError
      | None => raise (FileNotFoundError (path_str p))
      end
  end.

(** [writer.write(file_out)] *)
Definition write_pdf (p : path) (pages : list page) : M unit :=
  let* m := get_fs in
  record (EvWrite p) ;; put_fs (<[p := File (PdfFile pages)]> m).

(** [PdfReader(str(path))] together with [reader.pages] *)
Definition PdfReader (p : path) : M (list page) :=
  let* m := get_fs in
  match lookup_node m p with
  | None => raise (FileNotFoundError (path_str p))
  | Some Dir => raise IsADirectoryError
  | Some (File (RawFile _)) => raise PdfReadError
  | Some (File (PdfFile pages)) => ret pages
  end.

(** ** [annotate_pdf] *)

Record args : Type :=
  mkArgs { input_pdf : path;
           output_pdf : path;
           copy_number : string;
           watermark_text : string;
           copy_label_template : string;
           page_label_template : string;
           start_number : Z;
           total_pages : option Z;
           max_pages : option Z }.

(** A call that leaves every optional argument at its default. *)
Definition default_args (input output : path) (copy : string) : args :=
  mkArgs input output copy
         "Controlled Copy" "Copy No: {copy_number}" "Page {number} / {total}"
         1 None None.

(** The check of [max_pages] and the count of pages to annotate. *)
Definition processed_page_count (max_pages : option Z) (total_page_count : Z)
  : exn + Z :=
  match max_pages with
  | Some max_pages =>
      if max_pages <? 1
      then inl (ValueError "max_pages must be a positive integer")
      else inr (Z.min max_pages total_page_count)
  | None => inr total_page_count
  end.

Definition calculated_total (start_number processed : Z) : Z :=
  start_number + processed - 1.

(** The total shown in the page labels: the default, or the given one
    after its check. *)
Definition resolve_total_pages (total_pages : option Z) (calculated : Z)
  : exn + Z :=
  match total_pages with
  | None => inr calculated
  | Some total_pages =>
      if total_pages <? calculated
      then inl (ValueError
                  "total_pages is smaller than the number of pages that will be numbered.")
      else inr total_pages
  end.

Definition page_label (a : args) (current_number total : Z) : exn + string :=
  Format.format (page_label_template a)
    (<["number" := Format.VInt current_number]>
       (<["total" := Format.VInt total]> ∅)).

Definition copy_label (a : args) : exn + string :=
  Format.format (copy_label_template a)
    (<["copy_number" := Format.VStr (copy_number a)]> ∅).

(** The body of the loop for one page: the page as it goes to the writer. *)
Definition annotate_page (a : args) (processed total : Z)
    (index : nat) (p : page) : M page :=
  if Z.of_nat index <? processed then
    let current_number := start_number a + Z.of_nat index in
    let* page_label := lift (page_label a current_number total) in
    let* copy_label := lift (copy_label a) in
    let* overlay :=
      lift (_build_overlay_page (mediabox_width p) (mediabox_height p)
              page_label copy_label (watermark_text a)) in
    record (EvMergePage index) ;;
    ret (merge_page p overlay)
  else ret p.

(** [for index, page in enumerate(reader.pages)], from [index] on, with
    the pages the writer holds so far. *)
Fixpoint annotate_pages (a : args) (processed total : Z)
    (index : nat) (pages writer : list page) : M (list page) :=
  match pages with
  | [] => ret writer
  | p :: rest =>
      let* p' := annotate_page a processed total index p in
      record (EvAddPage index) ;;
      annotate_pages a processed total (S index) rest (writer ++ [p'])
  end.

(** The last three lines of [annotate_pdf]: make the directory of the
    destination, open the destination for writing, serialise. *)
Definition write_output (output_path : path) (writer : list page) : M unit :=
  mkdir_parents (parent output_path) ;;
  open_wb output_path ;;
  write_pdf output_path writer.

Definition annotate_pdf (a : args) : M unit :=
  let input_path := input_pdf a in
  let output_path := output_pdf a in
  let* found := path_exists input_path in
  if negb found then
    raise (FileNotFoundError
             ("Input PDF does not exist: " +:+ path_str input_path))
  else if start_number a <? 1 then
    raise (ValueError "start_number must be at least 1")
  else
    let* reader_pages := PdfReader input_path in
    let total_page_count := Z.of_nat (length reader_pages) in
    let* processed :=
      lift (processed_page_count (max_pages a) total_page_count) in
    let calculated := calculated_total (start_number a) processed in
    let* total := lift (resolve_total_pages (total_pages a) calculated) in
    let* writer := annotate_pages a processed total 0 reader_pages [] in
    write_output output_path writer.

(** ** The documents of the test suite

    [tests/test_processor.py] makes its inputs with [_create_sample_pdf]:
    A4 pages that each carry one line of text. *)

Definition mm : Q := inch / 25.4.

Definition A4 : Q * Q := (210 * mm, 297 * mm)%Q.

Definition sample_page (k : nat) : page :=
  mkPage (fst A4) (snd A4)
         [Canvas.mkText
            ("Original content on page " +:+ pretty (Z.of_nat k + 1))
            Canvas.AnchorStart 72 800
            (Canvas.mkGstate "Helvetica" 14 Canvas.black [])].

Definition _create_sample_pdf (page_count : nat) : file_data :=
  PdfFile (map sample_page (seq 0 page_count)).

Definition tmp_input : path := ["tmp"; "input.pdf"].
Definition tmp_output : path := ["tmp"; "output.pdf"].

(** The temporary directory of a test, holding a sample input. *)
Definition tmp_world (page_count : nat) : world :=
  mkWorld (<[tmp_input := File (_create_sample_pdf page_count)]>
             (<[["tmp"] := Dir]> ∅))
          [].

(** A page that already carries the words of the default watermark, and
    a two-page input that ends with it. *)
Definition stamped_page : page :=
  mkPage (fst A4) (snd A4)
         [Canvas.mkText "Controlled Copy of the register"
            Canvas.AnchorStart 72 800
            (Canvas.mkGstate "Helvetica" 14 Canvas.black [])].

Definition stamped_world : world :=
  mkWorld (<[tmp_input := File (PdfFile [sample_page 0; stamped_page])]>
             (<[["tmp"] := Dir]> ∅))
          [].



(** ** Definitions used to state the properties *)

(** The same call with another [max_pages]. *)
Definition with_max_pages (a : args) (m : option Z) : args :=
  mkArgs (input_pdf a) (output_pdf a) (copy_number a) (watermark_text a)
         (copy_label_template a) (page_label_template a)
         (start_number a) (total_pages a) m.

(** The errors [annotate_pdf] raises itself when it checks its numeric
    arguments (the specification calls them InvalidConfiguration). *)
Definition InvalidConfiguration (e : exn) : Prop :=
  e = ValueError "start_number must be at least 1"
  \/ e = ValueError "max_pages must be a positive integer"
  \/ e = ValueError
           "total_pages is smaller than the number of pages that will be numbered.".

(** The processed page count on its own, where the check of [max_pages]
    has passed. *)
Definition processed_count (max_pages : option Z) (total_page_count : Z) : Z :=
  match max_pages with
  | Some m => Z.min m total_page_count
  | None => total_page_count
  end.

(** What [annotate_page] hands to the writer, without the world. *)
Definition page_result (a : args) (processed total : Z)
    (index : nat) (p : page) : exn + page :=
  if Z.of_nat index <? processed then
    bind_exn (page_label a (start_number a + Z.of_nat index) total) (fun pl =>
    bind_exn (copy_label a) (fun cl =>
    bind_exn (_build_overlay_page (mediabox_width p) (mediabox_height p)
                pl cl (watermark_text a)) (fun overlay =>
    inr (merge_page p overlay))))
  else inr p.

Fixpoint pages_result (a : args) (processed total : Z)
    (index : nat) (pages : list page) : exn + list page :=
  match pages with
  | [] => inr []
  | p :: rest =>
      bind_exn (page_result a processed total index p) (fun q =>
      bind_exn (pages_result a processed total (S index) rest) (fun qs =>
      inr (q :: qs)))
  end.

(** The events of one turn of the loop, and of [n] turns from [index]. *)
Definition turn_events (processed : Z) (index : nat) : list event :=
  (if Z.of_nat index <? processed then [EvMergePage index] else [])
  ++ [EvAddPage index].

Fixpoint loop_events (processed : Z) (index n : nat) : list event :=
  match n with
  | O => []
  | S n' => turn_events processed index ++ loop_events processed (S index) n'
  end.

Definition is_page_event (e : event) : Prop :=
  match e with
  | EvMergePage _ | EvAddPage _ => True
  | _ => False
  end.

Definition is_mkdir_event (e : event) : Prop :=
  match e with
  | EvMkdir _ => True
  | _ => False
  end.


(** Two file systems hold the same files with the same data; directories
    may differ. *)
Definition same_files (m m' : gmap path node) : Prop :=
  forall p d, m' !! p = Some (File d) <-> m !! p = Some (File d).

(** The exceptions of the operating system among [exn]. *)
Definition OSError (e : exn) : Prop :=
  match e with
  | FileNotFoundError _ | IsADirectoryError | NotADirectoryError
  | FileExistsError => True
  | _ => False
  end.

(** From [w] to [w'] nothing happened but directories being made. *)
Definition only_dirs_made (w w' : world) : Prop :=
  same_files (fs w) (fs w')
  /\ exists evs, log w' = log w ++ evs /\ Forall is_mkdir_event evs.

(** Templates as the specification describes them: text without braces
    and named placeholders, each standing for the value of its name. *)
Inductive segment : Type :=
| Lit (s : string)
| Hole (name : string).

Fixpoint template_of (segs : list segment) : string :=
  match segs with
  | [] => ""
  | Lit s :: rest => s +:+ template_of rest
  | Hole name :: rest => "{" +:+ name +:+ "}" +:+ template_of rest
  end.

Fixpoint brace_free (s : string) : bool :=
  match s with
  | EmptyString => true
  | String c rest =>
      negb (c =? "{")%char && negb (c =? "}")%char && brace_free rest
  end.

Fixpoint stays_in_fragment (s : string) : bool :=
  match s with
  | EmptyString => true
  | String c rest => negb (Format.leaves_fragment c) && stays_in_fragment rest
  end.

(** A placeholder name the embedded fragment of [str.format] looks up
    among the keyword arguments. *)
Definition plain_name (name : string) : bool :=
  brace_free name && stays_in_fragment name && negb (Format.all_digits name).

Definition well_formed_segment (seg : segment) : Prop :=
  match seg with
  | Lit s => brace_free s = true
  | Hole name => plain_name name = true
  end.

(** Named-placeholder replacement, in the words of the specification:
    every placeholder is replaced by the value of its name; a name without
    a value makes the substitution fail. *)
Fixpoint substitute (segs : list segment) (values : gmap string Format.value)
  : option string :=
  match segs with
  | [] => Some ""
  | Lit s :: rest =>
      match substitute rest values with
      | Some out => Some (s +:+ out)
      | None => None
      end
  | Hole name :: rest =>
      match values !! name, substitute rest values with
      | Some v, Some out => Some (Format.str v +:+ out)
      | _, _ => None
      end
  end.

(** ** Further definitions for the properties of the whole program *)

(** The same call with another [total_pages]. *)
Definition with_total_pages (a : args) (t : option Z) : args :=
  mkArgs (input_pdf a) (output_pdf a) (copy_number a) (watermark_text a)
         (copy_label_template a) (page_label_template a)
         (start_number a) t (max_pages a).

(** A temporary directory whose input file is not a PDF document. *)
Definition garbage_world : world :=
  mkWorld (<[tmp_input := File (RawFile "not a PDF")]>
             (<[["tmp"] := Dir]> ∅))
          [].




(** * Properties *)

(** ** Strings *)

Lemma append_nil_l (s : string) : "" +:+ s = s.
Proof. reflexivity. Qed.

Lemma append_cons (c : ascii) (s t : string) :
  String c s +:+ t = String c (s +:+ t).
Proof. reflexivity. Qed.

Lemma append_nil_r (s : string) : s +:+ "" = s.
Proof. induction s as [|c s IH]; [reflexivity|]. by rewrite append_cons, IH. Qed.

Lemma append_assoc (s1 s2 s3 : string) :
  (s1 +:+ s2) +:+ s3 = s1 +:+ (s2 +:+ s3).
Proof.
  induction s1 as [|c s1 IH]; [reflexivity|].
  by rewrite !append_cons, IH.
Qed.

(** ** The format scanner *)

Section FormatFacts.

Import Format.

Variable kwargs : gmap string value.

Lemma emit_nil (r : exn + string) : emit "" r = r.
Proof. by destruct r. Qed.

Lemma emit_emit (s t : string) (r : exn + string) :
  emit s (emit t r) = emit (s +:+ t) r.
Proof. destruct r; simpl; [done|]. by rewrite append_assoc. Qed.

Lemma emit_inr (s : string) (r : exn + string) (out : string) :
  emit s r = inr out -> exists t, r = inr t /\ out = s +:+ t.
Proof. destruct r; simpl; [done|]. intros [= <-]. eauto. Qed.

(** A prefix that formats on its own is scanned the same way whatever
    follows it. *)
Lemma scan_app (pre : string) :
  forall (m : mode) (out rest : string),
    scan kwargs m pre = inr out ->
    scan kwargs m (pre +:+ rest) = emit out (scan kwargs Text rest).
Proof.
  induction pre as [|c pre IH]; intros m out rest H.
  - destruct m; simpl in H; try discriminate.
    injection H as <-. by rewrite append_nil_l, emit_nil.
  - rewrite append_cons. destruct m as [| |fresh name]; simpl in H |- *.
    + destruct (c =? "{")%char; [by apply IH|].
      destruct (c =? "}")%char; [by apply IH|].
      apply emit_inr in H as (t & Ht & ->).
      by rewrite (IH _ _ rest Ht), emit_emit.
    + destruct (c =? "}")%char; [|discriminate].
      apply emit_inr in H as (t & Ht & ->).
      by rewrite (IH _ _ rest Ht), emit_emit.
    + destruct (c =? "{")%char.
      { destruct fresh; [|discriminate].
        apply emit_inr in H as (t & Ht & ->).
        by rewrite (IH _ _ rest Ht), emit_emit. }
      destruct (c =? "}")%char.
      { destruct (get_field kwargs name) as [e|v]; [discriminate|].
        apply emit_inr in H as (t & Ht & ->).
        by rewrite (IH _ _ rest Ht), emit_emit. }
      destruct (leaves_fragment c); [discriminate|]. by apply IH.
Qed.

(** Text without braces is copied. *)
Lemma scan_literal (s : string) :
  brace_free s = true -> scan kwargs Text s = inr s.
Proof.
  induction s as [|c s IH]; simpl; [done|].
  intros [[Ho Hc]%andb_prop Hs]%andb_prop.
  apply negb_true_iff in Ho, Hc. rewrite Ho, Hc, (IH Hs). done.
Qed.

(** Inside a field, the characters of a name are collected up to the
    closing brace, and the name is looked up. *)
Lemma scan_field (name : string) :
  forall (fresh : bool) (acc rest : string),
    brace_free name = true ->
    stays_in_fragment name = true ->
    scan kwargs (Field fresh acc) (name +:+ String "}" rest)
    = match get_field kwargs (acc +:+ name) with
      | inl e => inl e
      | inr v => emit (str v) (scan kwargs Text rest)
      end.
Proof.
  induction name as [|c name IH]; intros fresh acc rest Hb Hf.
  - by rewrite append_nil_l, append_nil_r.
  - simpl in Hb, Hf.
    apply andb_prop in Hb as [[Ho Hc]%andb_prop Hb].
    apply andb_prop in Hf as [Hl Hf].
    apply negb_true_iff in Ho, Hc, Hl.
    rewrite append_cons. simpl. rewrite Ho, Hc, Hl.
    rewrite (IH false _ rest Hb Hf), append_assoc. done.
Qed.

Lemma get_field_plain (name : string) :
  plain_name name = true ->
  get_field kwargs name
  = match kwargs !! name with
    | Some v => inr v
    | None => inl (KeyError name)
    end.
Proof.
  unfold plain_name, get_field.
  intros [_ Hd%negb_true_iff]%andb_prop. by rewrite Hd.
Qed.

End FormatFacts.

Lemma plain_name_parts (name : string) :
  plain_name name = true ->
  brace_free name = true /\ stays_in_fragment name = true.
Proof. unfold plain_name. by intros [[??]%andb_prop _]%andb_prop. Qed.

(** On a template made of brace-free text and plain placeholders,
    [str.format] is the replacement of every placeholder by its value; it
    raises [KeyError] with the first name that has no value. *)
Lemma format_template_of (kwargs : gmap string Format.value)
    (segs : list segment) :
  Forall well_formed_segment segs ->
  match substitute segs kwargs with
  | Some out => Format.format (template_of segs) kwargs = inr out
  | None =>
      exists name, Hole name ∈ segs /\ kwargs !! name = None
                   /\ Format.format (template_of segs) kwargs
                      = inl (KeyError name)
  end.
Proof.
  unfold Format.format.
  induction 1 as [|seg segs Hseg _ IH]; [done|].
  destruct seg as [s|name]; simpl in *.
  - rewrite (scan_app kwargs s Format.Text s _ (scan_literal kwargs s Hseg)).
    destruct (substitute segs kwargs) as [out|].
    + by rewrite IH.
    + destruct IH as (name & Hin & Hnone & ->).
      exists name. split_and!; [by right|done..].
  - destruct (plain_name_parts _ Hseg) as [Hb Hf].
    rewrite append_cons, append_nil_l. simpl. rewrite append_nil_l.
    rewrite (scan_field kwargs name true "" _ Hb Hf), append_nil_l.
    rewrite (get_field_plain kwargs name Hseg).
    destruct (kwargs !! name) as [v|] eqn:Hv.
    + destruct (substitute segs kwargs) as [out|].
      * by rewrite IH.
      * destruct IH as (name' & Hin & Hnone & ->).
        exists name'. split_and!; [by right|done..].
    + exists name. split_and!; [by left|done..].
Qed.


Ltac not_configuration := intros [?|[?|?]]; discriminate.

(** The scanner never raises one of the errors of the argument checks. *)
Lemma scan_not_configuration (kwargs : gmap string Format.value) (s : string) :
  forall (m : Format.mode) (e : exn),
    Format.scan kwargs m s = inl e -> ~ InvalidConfiguration e.
Proof.
  unfold InvalidConfiguration.
  induction s as [|c s IH]; intros m e H.
  - destruct m as [| |[] name]; simpl in H; simplify_eq; not_configuration.
  - destruct m as [| |fresh name]; simpl in H.
    + destruct (c =? "{")%char; [by eapply IH|].
      destruct (c =? "}")%char; [by eapply IH|].
      destruct (Format.scan kwargs Format.Text s) eqn:E; simplify_eq/=.
      by eapply IH.
    + destruct (c =? "}")%char; [|simplify_eq; not_configuration].
      destruct (Format.scan kwargs Format.Text s) eqn:E; simplify_eq/=.
      by eapply IH.
    + destruct (c =? "{")%char.
      { destruct fresh; [|simplify_eq; not_configuration].
        destruct (Format.scan kwargs Format.Text s) eqn:E; simplify_eq/=.
        by eapply IH. }
      destruct (c =? "}")%char.
      { unfold Format.get_field in H.
        destruct (Format.all_digits name).
        { destruct (_ <? _); simplify_eq; not_configuration. }
        destruct (kwargs !! name); [|simplify_eq; not_configuration].
        destruct (Format.scan kwargs Format.Text s) eqn:E; simplify_eq/=.
        by eapply IH. }
      destruct (Format.leaves_fragment c); [simplify_eq; not_configuration|].
      by eapply IH.
Qed.

(** ** The overlay *)

(** Rendering raises nothing, whatever the size of the page. *)
Lemma overlay_renders (width height : Q) (pl cl wm : string) :
  exists overlay,
    _build_overlay_page width height pl cl wm = inr overlay
    /\ mediabox_width overlay = width
    /\ mediabox_height overlay = height
    /\ map Canvas.text (contents overlay) = [cl; pl; wm].
Proof. eexists. split; [reflexivity|]. by cbn. Qed.

Lemma merge_page_changes (p overlay : page) :
  contents overlay <> [] -> merge_page p overlay <> p.
Proof.
  intros Hne Heq. apply (f_equal contents) in Heq. simpl in Heq.
  apply (f_equal length) in Heq. rewrite length_app in Heq.
  destruct (contents overlay); [done|]. simpl in Heq. lia.
Qed.

(** ** The loop over the pages *)

Lemma world_eta (w : world) : mkWorld (fs w) (log w) = w.
Proof. by destruct w. Qed.

Section Loop.

Variables (a : args) (processed total : Z).

Lemma annotate_page_run (index : nat) (p : page) (w : world) :
  annotate_page a processed total index p w
  = match page_result a processed total index p with
    | inl e => (inl e, w)
    | inr q =>
        (inr q,
         if Z.of_nat index <? processed
         then mkWorld (fs w) (log w ++ [EvMergePage index])
         else w)
    end.
Proof.
  unfold annotate_page, page_result.
  destruct (Z.of_nat index <? processed); [|done].
  unfold bind, lift, bind_exn.
  destruct (page_label _ _ _); [done|].
  destruct (copy_label _); [done|].
  by destruct (_build_overlay_page _ _ _ _ _).
Qed.

(** When every page can be annotated, the loop hands all of them to the
    writer, and only the log changes. *)
Lemma annotate_pages_ok (pages : list page) :
  forall (index : nat) (writer qs : list page) (w : world),
    pages_result a processed total index pages = inr qs ->
    annotate_pages a processed total index pages writer w
    = (inr (writer ++ qs),
       mkWorld (fs w)
               (log w ++ loop_events processed index (length pages))).
Proof.
  induction pages as [|p rest IH]; intros index writer qs w H; simpl in *.
  - injection H as <-. unfold ret. by rewrite !app_nil_r, world_eta.
  - destruct (page_result a processed total index p) as [|q] eqn:Hq;
      [done|]. simpl in H.
    destruct (pages_result a processed total (S index) rest) as [|qs'] eqn:Hr;
      [done|]. injection H as <-.
    unfold bind at 1. rewrite annotate_page_run, Hq.
    unfold bind at 1. unfold record at 1.
    rewrite (IH _ _ _ _ Hr). unfold turn_events.
    destruct (Z.of_nat index <? processed); simpl;
      by rewrite <- !app_assoc.
Qed.

(** When some page cannot be annotated, the loop raises what that page
    raised; the file system is as before, the log holds page events. *)
Lemma annotate_pages_fails (pages : list page) :
  forall (index : nat) (writer : list page) (e : exn) (w : world),
    pages_result a processed total index pages = inl e ->
    exists evs,
      Forall is_page_event evs
      /\ annotate_pages a processed total index pages writer w
         = (inl e, mkWorld (fs w) (log w ++ evs)).
Proof.
  induction pages as [|p rest IH]; intros index writer e w H; simpl in *;
    [done|].
  unfold bind at 1. rewrite annotate_page_run.
  destruct (page_result a processed total index p) as [e'|q] eqn:Hq.
  - injection H as <-. exists []. by rewrite app_nil_r, world_eta.
  - simpl in H.
    destruct (pages_result a processed total (S index) rest) as [e'|] eqn:Hr;
      [|done]. injection H as <-.
    unfold bind at 1. unfold record at 1.
    edestruct (IH (S index) (writer ++ [q]) e') as (evs & Hevs & ->);
      [done|].
    exists (turn_events processed index ++ evs). split.
    + apply Forall_app. split; [|done]. unfold turn_events.
      destruct (_ <? _); repeat constructor.
    + unfold turn_events.
      destruct (Z.of_nat index <? processed); simpl;
        by rewrite <- !app_assoc.
Qed.

Lemma pages_result_lookup (pages : list page) :
  forall (index : nat) (qs : list page),
    pages_result a processed total index pages = inr qs ->
    length qs = length pages
    /\ forall (i : nat) (p : page),
         pages !! i = Some p ->
         exists q, qs !! i = Some q
                   /\ page_result a processed total (index + i) p = inr q.
Proof.
  induction pages as [|p rest IH]; intros index qs H; simpl in *.
  - injection H as <-. done.
  - destruct (page_result a processed total index p) as [|q] eqn:Hq;
      [done|]. simpl in H.
    destruct (pages_result a processed total (S index) rest) as [|qs'] eqn:Hr;
      [done|]. injection H as <-.
    destruct (IH _ _ Hr) as [Hlen Hall]. split; [simpl; by rewrite Hlen|].
    intros [|i] p' Hp'; simpl in *.
    + injection Hp' as <-. exists q. by rewrite Nat.add_0_r.
    + destruct (Hall i p' Hp') as (q' & Hq' & Hres).
      exists q'. split; [done|]. by rewrite <- Nat.add_succ_comm.
Qed.

Lemma pages_result_error (pages : list page) :
  forall (index : nat) (e : exn),
    pages_result a processed total index pages = inl e ->
    exists (i : nat) (p : page),
      pages !! i = Some p
      /\ page_result a processed total (index + i) p = inl e.
Proof.
  induction pages as [|p rest IH]; intros index e H; simpl in *; [done|].
  destruct (page_result a processed total index p) as [e'|q] eqn:Hq.
  - injection H as <-. exists 0%nat, p. by rewrite Nat.add_0_r.
  - simpl in H.
    destruct (pages_result a processed total (S index) rest) as [e'|] eqn:Hr;
      [|done]. injection H as <-.
    destruct (IH _ _ Hr) as (i & p' & Hp' & He).
    exists (S i), p'. split; [done|]. by rewrite <- Nat.add_succ_comm.
Qed.

End Loop.

(** ** Writing the output *)

Lemma only_dirs_made_refl (w : world) : only_dirs_made w w.
Proof.
  split; [done|]. exists []. by rewrite app_nil_r.
Qed.

Lemma only_dirs_made_trans (w1 w2 w3 : world) :
  only_dirs_made w1 w2 -> only_dirs_made w2 w3 -> only_dirs_made w1 w3.
Proof.
  intros [Hf (evs & Hl & He)] [Hf' (evs' & Hl' & He')]. split.
  - intros p d. etrans; [apply Hf'|apply Hf].
  - exists (evs ++ evs'). split; [by rewrite Hl', Hl, app_assoc|].
    by apply Forall_app.
Qed.

Lemma same_files_insert_dir (m : gmap path node) (p : path) :
  m !! p = None -> same_files m (<[p := Dir]> m).
Proof.
  intros Hp q d. destruct (decide (p = q)) as [<-|Hne].
  - rewrite lookup_insert_eq, Hp. split; discriminate.
  - by rewrite lookup_insert_ne.
Qed.

(** [os.mkdir] either makes one directory where nothing was, or raises
    and changes nothing. *)
Lemma os_mkdir_run (p : path) (w : world) :
  (fst (os_mkdir p w) = inr tt
   /\ fs w !! p = None
   /\ snd (os_mkdir p w)
      = mkWorld (<[p := Dir]> (fs w)) (log w ++ [EvMkdir p]))
  \/ (exists e, os_mkdir p w = (inl e, w) /\ OSError e).
Proof.
  unfold os_mkdir, bind, get_fs, raise.
  destruct (lookup_node (fs w) p) as [n|] eqn:Hp; [right; by eexists|].
  destruct (lookup_node (fs w) (parent p)) as [[|d]|];
    [|right; by eexists..].
  left. destruct p; [done|]. done.
Qed.

Lemma os_mkdir_only_dirs (p : path) (w : world) :
  only_dirs_made w (snd (os_mkdir p w)).
Proof.
  destruct (os_mkdir_run p w) as [(_ & Hnone & ->)|(e & -> & _)];
    [|apply only_dirs_made_refl].
  split; [by apply same_files_insert_dir|].
  exists [EvMkdir p]. split; [done|]. by repeat constructor.
Qed.

Lemma os_mkdir_error (p : path) (w : world) (e : exn) :
  fst (os_mkdir p w) = inl e -> OSError e.
Proof.
  destruct (os_mkdir_run p w) as [(Hok & _)|(e' & -> & He)].
  - by rewrite Hok.
  - by intros [= <-].
Qed.

Lemma mkdir_exist_ok_run (p : path) (w : world) :
  only_dirs_made w (snd (mkdir_exist_ok p w))
  /\ forall e, fst (mkdir_exist_ok p w) = inl e -> OSError e.
Proof.
  unfold mkdir_exist_ok, try_except.
  pose proof (os_mkdir_only_dirs p w) as Hd.
  pose proof (os_mkdir_error p w) as He.
  destruct (os_mkdir p w) as [[e|[]] w']; simpl in *; [|by split].
  specialize (He e eq_refl).
  destruct e; simpl in He; try done;
    unfold bind, get_fs, raise, ret;
    try (destruct (is_dir (fs w') p)); simpl; split; try done;
    by intros ? [= <-].
Qed.

Lemma mkdir_parents_rev_run (rp : list string) :
  forall w : world,
    only_dirs_made w (snd (mkdir_parents_rev rp w))
    /\ forall e, fst (mkdir_parents_rev rp w) = inl e -> OSError e.
Proof.
  induction rp as [|c rp IH]; intros w.
  - assert (mkdir_parents_rev [] w = (inr tt, w)) as -> by done.
    split; [apply only_dirs_made_refl|done].
  - cbn [mkdir_parents_rev]. unfold try_except.
    pose proof (os_mkdir_only_dirs (rev (c :: rp)) w) as Hd.
    pose proof (os_mkdir_error (rev (c :: rp)) w) as He.
    destruct (os_mkdir (rev (c :: rp)) w) as [[e|[]] w']; simpl in Hd, He;
      [|by split].
    specialize (He e eq_refl).
    destruct e; simpl in He; try done.
    + unfold bind.
      destruct (IH w') as [Hd' He'].
      destruct (mkdir_parents_rev rp w') as [[e'|[]] w''] eqn:Hrec;
        simpl in Hd', He'.
      * simpl. split; [by eapply only_dirs_made_trans|].
        intros ? [= <-]. by apply He'.
      * destruct (mkdir_exist_ok_run (rev (c :: rp)) w'') as [Hd'' He''].
        split; [|done].
        eapply only_dirs_made_trans; [done|].
        by eapply only_dirs_made_trans.
    + unfold bind, get_fs, raise, ret.
      destruct (is_dir (fs w') _); simpl; split; try done.
      by intros ? [= <-].
    + unfold bind, get_fs, raise, ret.
      destruct (is_dir (fs w') _); simpl; split; try done.
      by intros ? [= <-].
    + unfold bind, get_fs, raise, ret.
      destruct (is_dir (fs w') _); simpl; split; try done.
      by intros ? [= <-].
Qed.

Lemma open_wb_run (p : path) (w : world) :
  open_wb p w
  = (inr tt,
     mkWorld (<[p := File (RawFile "")]> (fs w)) (log w ++ [EvOpenWrite p]))
  \/ (exists e, open_wb p w = (inl e, w) /\ OSError e).
Proof.
  unfold open_wb, bind, get_fs, raise, record, put_fs.
  destruct (lookup_node (fs w) p) as [[|d]|];
    [right; by eexists| |];
    (destruct (lookup_node (fs w) (parent p)) as [[|d']|];
     [by left|right; by eexists..]).
Qed.

(** The three closing steps: either an error of the operating system,
    after which no file has changed; or the destination holds the whole
    document, and the log ends with the opening and the writing. *)
Lemma write_output_run (p : path) (writer : list page) (w : world) :
  (exists e w',
      write_output p writer w = (inl e, w')
      /\ OSError e /\ only_dirs_made w w')
  \/ (exists w1,
        only_dirs_made w w1
        /\ write_output p writer w
           = (inr tt,
              mkWorld (<[p := File (PdfFile writer)]>
                         (<[p := File (RawFile "")]> (fs w1)))
                      (log w1 ++ [EvOpenWrite p; EvWrite p]))).
Proof.
  destruct (mkdir_parents_rev_run (rev (parent p)) w) as [Hd He].
  destruct (mkdir_parents_rev (rev (parent p)) w) as [[e|[]] w1] eqn:Hmk;
    simpl in Hd, He.
  { left. exists e, w1. split_and!; [|by apply He|done].
    unfold write_output, mkdir_parents, bind. by rewrite Hmk. }
  destruct (open_wb_run p w1) as [Hop|(e & Hop & Hos)].
  - right. exists w1. split; [done|].
    unfold write_output, mkdir_parents, bind. rewrite Hmk, Hop.
    unfold write_pdf, get_fs, record, put_fs, bind. simpl.
    by rewrite <- app_assoc.
  - left. exists e, w1. split_and!; [|done..].
    unfold write_output, mkdir_parents, bind. by rewrite Hmk, Hop.
Qed.

(** ** [annotate_pdf], phase by phase *)

(** With a PDF document at the input path, the call is the argument
    checks followed by the loop and the writing. *)
Lemma annotate_pdf_readable (a : args) (w : world) (pages : list page) :
  lookup_node (fs w) (input_pdf a) = Some (File (PdfFile pages)) ->
  annotate_pdf a w
  = if start_number a <? 1 then
      (inl (ValueError "start_number must be at least 1"), w)
    else
      match processed_page_count (max_pages a) (Z.of_nat (length pages)) with
      | inl e => (inl e, w)
      | inr processed =>
          match resolve_total_pages (total_pages a)
                  (calculated_total (start_number a) processed) with
          | inl e => (inl e, w)
          | inr total =>
              (let* writer := annotate_pages a processed total 0 pages [] in
               write_output (output_pdf a) writer) w
          end
      end.
Proof.
  intros Hin.
  unfold annotate_pdf, path_exists, PdfReader, get_fs, ret, raise, lift.
  unfold bind at 1 2. simpl. rewrite Hin. simpl.
  destruct (start_number a <? 1); [done|].
  unfold bind at 1 2. simpl. rewrite Hin.
  unfold bind at 1.
  destruct (processed_page_count _ _); [done|].
  unfold bind at 1.
  by destruct (resolve_total_pages _ _).
Qed.

(** Without one, the call raises before it looks at [max_pages] or
    [total_pages], and changes nothing. *)
Lemma annotate_pdf_unreadable (a : args) (w : world) :
  (forall pages,
      lookup_node (fs w) (input_pdf a) <> Some (File (PdfFile pages))) ->
  exists e,
    (forall m t,
        annotate_pdf
          (mkArgs (input_pdf a) (output_pdf a) (copy_number a)
                  (watermark_text a) (copy_label_template a)
                  (page_label_template a) (start_number a) t m) w
        = (inl e, w))
    /\ (InvalidConfiguration e -> start_number a < 1).
Proof.
  intros Hno.
  unfold annotate_pdf, path_exists, PdfReader, get_fs, ret, raise, lift, bind.
  simpl.
  destruct (lookup_node (fs w) (input_pdf a)) as [[|[pages|bytes]]|] eqn:Hin;
    simpl.
  - destruct (start_number a <? 1) eqn:Hs.
    + eexists. split; [done|]. intros _. lia.
    + exists IsADirectoryError. split; [by rewrite Hin|]. not_configuration.
  - by destruct (Hno pages).
  - destruct (start_number a <? 1) eqn:Hs.
    + eexists. split; [done|]. intros _. lia.
    + exists PdfReadError. split; [by rewrite Hin|]. not_configuration.
  - eexists. split; [done|]. not_configuration.
Qed.

Section Phases.

Variables (a : args) (w : world) (pages : list page) (processed total : Z).

Hypothesis readable :
  lookup_node (fs w) (input_pdf a) = Some (File (PdfFile pages)).
Hypothesis start_ok : (start_number a <? 1) = false.
Hypothesis processed_ok :
  processed_page_count (max_pages a) (Z.of_nat (length pages))
  = inr processed.
Hypothesis total_ok :
  resolve_total_pages (total_pages a)
    (calculated_total (start_number a) processed) = inr total.

Lemma annotate_pdf_checked :
  annotate_pdf a w
  = (let* writer := annotate_pages a processed total 0 pages [] in
     write_output (output_pdf a) writer) w.
Proof.
  by rewrite (annotate_pdf_readable a w pages readable),
    start_ok, processed_ok, total_ok.
Qed.

(** A page that cannot be annotated ends the call in the loop. *)
Lemma annotate_pdf_loop_fails (e : exn) :
  pages_result a processed total 0 pages = inl e ->
  exists evs,
    Forall is_page_event evs
    /\ annotate_pdf a w = (inl e, mkWorld (fs w) (log w ++ evs)).
Proof.
  intros He. rewrite annotate_pdf_checked. unfold bind.
  destruct (annotate_pages_fails a processed total pages 0 [] e w He)
    as (evs & Hevs & ->).
  by exists evs.
Qed.

(** Otherwise the call ends as the writing of the pages ends. *)
Lemma annotate_pdf_loop_ok (out : list page) :
  pages_result a processed total 0 pages = inr out ->
  annotate_pdf a w
  = write_output (output_pdf a) out
      (mkWorld (fs w)
               (log w ++ loop_events processed 0 (length pages))).
Proof.
  intros Hout. rewrite annotate_pdf_checked. unfold bind.
  by rewrite (annotate_pages_ok a processed total pages 0 [] out w Hout).
Qed.

End Phases.

(** ** Which errors come from where *)

Lemma OSError_not_configuration (e : exn) :
  OSError e -> ~ InvalidConfiguration e.
Proof. destruct e; simpl; try done; intros _; not_configuration. Qed.

Lemma page_result_not_configuration (a : args) (processed total : Z)
    (index : nat) (p : page) (e : exn) :
  page_result a processed total index p = inl e -> ~ InvalidConfiguration e.
Proof.
  unfold page_result. destruct (_ <? _); [|done].
  unfold page_label, copy_label, Format.format.
  destruct (Format.scan _ _ (page_label_template a)) as [e1|pl] eqn:Hpl;
    cbn [bind_exn].
  { intros [= <-]. by eapply scan_not_configuration. }
  destruct (Format.scan _ _ (copy_label_template a)) as [e2|cl] eqn:Hcl;
    cbn [bind_exn].
  { intros [= <-]. by eapply scan_not_configuration. }
  destruct (overlay_renders (mediabox_width p) (mediabox_height p)
              pl cl (watermark_text a)) as (ov & -> & _).
  done.
Qed.

Lemma processed_page_count_inr (max_pages : option Z) (n processed : Z) :
  processed_page_count max_pages n = inr processed ->
  processed = processed_count max_pages n
  /\ match max_pages with Some m => 1 <= m | None => True end.
Proof.
  unfold processed_page_count, processed_count.
  destruct max_pages as [m|]; [|by intros [= <-]].
  destruct (m <? 1) eqn:Hm; [done|]. intros [= <-]. split; [done|lia].
Qed.

Lemma processed_page_count_inl (max_pages : option Z) (n : Z) (e : exn) :
  processed_page_count max_pages n = inl e ->
  e = ValueError "max_pages must be a positive integer"
  /\ exists m, max_pages = Some m /\ m < 1.
Proof.
  unfold processed_page_count.
  destruct max_pages as [m|]; [|done].
  destruct (m <? 1) eqn:Hm; [|done]. intros [= <-].
  split; [done|]. exists m. split; [done|lia].
Qed.

Lemma resolve_total_pages_inl (total_pages : option Z) (calculated : Z)
    (e : exn) :
  resolve_total_pages total_pages calculated = inl e ->
  e = ValueError
        "total_pages is smaller than the number of pages that will be numbered."
  /\ exists t, total_pages = Some t /\ t < calculated.
Proof.
  unfold resolve_total_pages.
  destruct total_pages as [t|]; [|done].
  destruct (t <? calculated) eqn:Ht; [|done]. intros [= <-].
  split; [done|]. exists t. split; [done|lia].
Qed.

Lemma resolve_total_pages_inr (total_pages : option Z) (calculated total : Z) :
  resolve_total_pages total_pages calculated = inr total ->
  match total_pages with
  | Some t => total = t /\ calculated <= t
  | None => total = calculated
  end.
Proof.
  unfold resolve_total_pages.
  destruct total_pages as [t|]; [|by intros [= <-]].
  destruct (t <? calculated) eqn:Ht; [done|]. intros [= <-]. split; [done|lia].
Qed.

(** * The claims *)

(** C1.  With a document of [n] pages at the input path,
    [start_number >= 1] and, when given, [max_pages >= 1]: the processed
    page count is [min(max_pages, n)] when [max_pages] is given and [n]
    otherwise; the call is the loop run with that count, followed by the
    writing; and when [total_pages] is not given, the total the loop
    formats the page labels with is
    [start_number + processed_page_count - 1]. *)
Theorem processed_count_and_resolved_total
    (a : args) (w : world) (pages : list page) :
  lookup_node (fs w) (input_pdf a) = Some (File (PdfFile pages)) ->
  1 <= start_number a ->
  match max_pages a with Some m => 1 <= m | None => True end ->
  let n := Z.of_nat (length pages) in
  let processed :=
    match max_pages a with Some m => Z.min m n | None => n end in
  0 <= n
  /\ processed_page_count (max_pages a) n = inr processed
  /\ annotate_pdf a w
     = (let* total :=
          lift (resolve_total_pages (total_pages a)
                  (start_number a + processed - 1)) in
        let* writer := annotate_pages a processed total 0 pages [] in
        write_output (output_pdf a) writer) w
  /\ (total_pages a = None ->
      resolve_total_pages (total_pages a)
        (calculated_total (start_number a) processed)
      = inr (start_number a + processed - 1)
      /\ annotate_pdf a w
         = (let* writer :=
              annotate_pages a processed
                (start_number a + processed - 1) 0 pages [] in
            write_output (output_pdf a) writer) w).
Proof.
  intros Hin Hstart Hmax n processed.
  assert (processed_page_count (max_pages a) n = inr processed) as Hp.
  { unfold processed_page_count, processed.
    destruct (max_pages a) as [m|]; [|done].
    by destruct (Z.ltb_spec m 1); [lia|]. }
  assert ((start_number a <? 1) = false) as Hs by lia.
  split_and!; [lia|done| |].
  - rewrite (annotate_pdf_readable a w pages Hin), Hs. fold n. rewrite Hp.
    unfold calculated_total, lift. unfold bind at 3.
    by destruct (resolve_total_pages _ _).
  - intros Hnone. rewrite Hnone. split; [done|].
    rewrite (annotate_pdf_readable a w pages Hin), Hs. fold n.
    by rewrite Hp, Hnone.
Qed.

Lemma processed_count_and_resolved_total_witness :
  let a := with_max_pages (default_args tmp_input tmp_output "CC-002")
                          (Some 2) in
  let w := tmp_world 4 in
  processed_page_count (max_pages a) 4 = inr 2
  /\ annotate_pdf a w
     = (let* writer :=
          annotate_pages a 2 2 0 (map sample_page (seq 0 4)) [] in
        write_output (output_pdf a) writer) w.
Proof.
  intros a w.
  destruct (processed_count_and_resolved_total a w (map sample_page (seq 0 4)))
    as (_ & Hp & _ & Ht); [reflexivity|simpl; lia|simpl; lia|].
  split; [exact Hp|]. exact (proj2 (Ht eq_refl)).
Defined.

(** C2.  With a document at the input path, [annotate_pdf] fails with one
    of its configuration errors exactly when [start_number < 1], or
    [max_pages] is given and [< 1], or [total_pages] is given and
    [< start_number + processed_page_count - 1]; and when it does, the
    world is as before the call: no page has been merged or added, no
    directory made, no file written. *)
Theorem invalid_configuration_exactly
    (a : args) (w : world) (pages : list page) :
  lookup_node (fs w) (input_pdf a) = Some (File (PdfFile pages)) ->
  let processed :=
    processed_count (max_pages a) (Z.of_nat (length pages)) in
  ((exists e, fst (annotate_pdf a w) = inl e /\ InvalidConfiguration e)
   <-> (start_number a < 1
        \/ (exists m, max_pages a = Some m /\ m < 1)
        \/ (exists t, total_pages a = Some t
                      /\ t < start_number a + processed - 1)))
  /\ (forall e,
        fst (annotate_pdf a w) = inl e -> InvalidConfiguration e ->
        snd (annotate_pdf a w) = w).
Proof.
  intros Hin processed.
  rewrite (annotate_pdf_readable a w pages Hin).
  destruct (Z.ltb_spec (start_number a) 1) as [Hs|Hs].
  { split; [|done]. split; [by left|]. intros _. eexists. split; [done|].
    by left. }
  destruct (processed_page_count (max_pages a) (Z.of_nat (length pages)))
    as [e1|P] eqn:HP.
  { apply processed_page_count_inl in HP as (-> & m & Hm & Hlt).
    split; [|done]. split; [intros _; right; left; eauto|].
    intros _. eexists. split; [done|]. right. by left. }
  apply processed_page_count_inr in HP as [-> Hmax]. fold processed.
  destruct (resolve_total_pages (total_pages a)
              (calculated_total (start_number a) processed))
    as [e2|T] eqn:HT.
  { apply resolve_total_pages_inl in HT as (-> & t & Ht & Hlt).
    split; [|done]. split; [intros _; right; right; eauto|].
    intros _. eexists. split; [done|]. right. by right. }
  apply resolve_total_pages_inr in HT.
  assert (forall e,
             fst ((let* writer :=
                     annotate_pages a processed T 0 pages [] in
                   write_output (output_pdf a) writer) w) = inl e ->
             ~ InvalidConfiguration e) as Hlate.
  { intros e. unfold bind.
    destruct (pages_result a processed T 0 pages) as [e'|out] eqn:Hres.
    - destruct (annotate_pages_fails a processed T pages 0 [] e' w Hres)
        as (evs & _ & ->). intros [= <-].
      apply pages_result_error in Hres as (i & p & _ & Hp).
      by eapply page_result_not_configuration.
    - rewrite (annotate_pages_ok a processed T pages 0 [] out w Hres).
      destruct (write_output_run (output_pdf a) ([] ++ out)
                  (mkWorld (fs w)
                     (log w ++ loop_events processed 0 (length pages))))
        as [(e' & w' & -> & Hos & _)|(w1 & _ & ->)]; [|done].
      intros [= <-]. by apply OSError_not_configuration. }
  split.
  - split.
    + intros (e & He & Hc). by destruct (Hlate e He).
    + intros [?|[(m & Hm & ?)|(t & Ht & ?)]]; [lia| |].
      * rewrite Hm in Hmax. lia.
      * rewrite Ht in HT. unfold calculated_total in HT. lia.
  - intros e He Hc. by destruct (Hlate e He).
Qed.

Lemma invalid_configuration_exactly_witness :
  let a := mkArgs tmp_input tmp_output "CC-001" "Controlled Copy"
                  "Copy No: {copy_number}" "Page {number} / {total}"
                  0 None None in
  ((exists e, fst (annotate_pdf a (tmp_world 3)) = inl e
              /\ InvalidConfiguration e)
   <-> (start_number a < 1
        \/ (exists m, max_pages a = Some m /\ m < 1)
        \/ (exists t, total_pages a = Some t
                      /\ t < start_number a + 3 - 1)))
  /\ (forall e,
        fst (annotate_pdf a (tmp_world 3)) = inl e ->
        InvalidConfiguration e ->
        snd (annotate_pdf a (tmp_world 3)) = tmp_world 3).
Proof.
  intros a.
  apply (invalid_configuration_exactly a (tmp_world 3)
           (map sample_page (seq 0 3))).
  reflexivity.
Defined.

(** The two ways a page reaches the writer. *)
Lemma page_result_inr (a : args) (processed total : Z)
    (index : nat) (p q : page) :
  page_result a processed total index p = inr q ->
  (Z.of_nat index < processed
   /\ exists pl cl overlay,
       page_label a (start_number a + Z.of_nat index) total = inr pl
       /\ copy_label a = inr cl
       /\ _build_overlay_page (mediabox_width p) (mediabox_height p)
            pl cl (watermark_text a) = inr overlay
       /\ q = merge_page p overlay)
  \/ (processed <= Z.of_nat index /\ q = p).
Proof.
  unfold page_result.
  destruct (Z.ltb_spec (Z.of_nat index) processed) as [Hlt|Hge];
    [|intros [= <-]; by right].
  unfold bind_exn.
  destruct (page_label a _ total) as [|pl] eqn:Hpl; [done|].
  destruct (copy_label a) as [|cl] eqn:Hcl; [done|].
  destruct (_build_overlay_page _ _ pl cl _) as [|ov] eqn:Hov; [done|].
  intros [= <-]. left. split; [done|]. by exists pl, cl, ov.
Qed.

(** ** A call that returns *)

(** What is known when [annotate_pdf] returns normally: the checks passed,
    every page went through the loop, directories may have been made, and
    the destination holds the pages the loop produced. *)
Lemma annotate_pdf_returns
    (a : args) (w w' : world) (pages : list page) :
  lookup_node (fs w) (input_pdf a) = Some (File (PdfFile pages)) ->
  annotate_pdf a w = (inr tt, w') ->
  exists (total : Z) (out : list page) (w1 : world),
    let processed :=
      processed_count (max_pages a) (Z.of_nat (length pages)) in
    1 <= start_number a
    /\ match max_pages a with Some m => 1 <= m | None => True end
    /\ resolve_total_pages (total_pages a)
         (calculated_total (start_number a) processed) = inr total
    /\ pages_result a processed total 0 pages = inr out
    /\ only_dirs_made
         (mkWorld (fs w) (log w ++ loop_events processed 0 (length pages)))
         w1
    /\ w' = mkWorld (<[output_pdf a := File (PdfFile out)]>
                       (<[output_pdf a := File (RawFile "")]> (fs w1)))
                    (log w1 ++ [EvOpenWrite (output_pdf a);
                                EvWrite (output_pdf a)]).
Proof.
  intros Hin. rewrite (annotate_pdf_readable a w pages Hin).
  destruct (Z.ltb_spec (start_number a) 1) as [Hs|Hs]; [done|].
  destruct (processed_page_count (max_pages a) (Z.of_nat (length pages)))
    as [e1|P] eqn:HP; [done|].
  apply processed_page_count_inr in HP as [-> Hmax].
  set (P := processed_count (max_pages a) (Z.of_nat (length pages))).
  destruct (resolve_total_pages (total_pages a) _) as [e2|T] eqn:HT; [done|].
  unfold bind.
  destruct (pages_result a P T 0 pages) as [e'|out] eqn:Hres.
  { destruct (annotate_pages_fails a P T pages 0 [] e' w Hres)
      as (evs & _ & ->). done. }
  rewrite (annotate_pages_ok a P T pages 0 [] out w Hres).
  destruct (write_output_run (output_pdf a) ([] ++ out)
              (mkWorld (fs w) (log w ++ loop_events P 0 (length pages))))
    as [(e' & w2 & -> & _)|(w1 & Hd & ->)]; [done|].
  intros [= <-]. exists T, out, w1. by split_and!.
Qed.

(** C3.  When [annotate_pdf] returns, the destination holds a document
    with as many pages as the input; page [i] of it is page [i] of the
    input, with the same media box and the same content, possibly with
    more painted over it.  Hence the number of pages does not depend on
    [max_pages]: two calls that differ in it only give outputs of the
    same length. *)
Theorem output_keeps_the_pages
    (a : args) (w w' : world) (pages : list page) :
  lookup_node (fs w) (input_pdf a) = Some (File (PdfFile pages)) ->
  annotate_pdf a w = (inr tt, w') ->
  exists out,
    fs w' !! output_pdf a = Some (File (PdfFile out))
    /\ length out = length pages
    /\ (forall i p,
          pages !! i = Some p ->
          exists q painted,
            out !! i = Some q
            /\ mediabox_width q = mediabox_width p
            /\ mediabox_height q = mediabox_height p
            /\ contents q = contents p ++ painted)
    /\ (forall m w'',
          annotate_pdf (with_max_pages a m) w = (inr tt, w'') ->
          exists out',
            fs w'' !! output_pdf a = Some (File (PdfFile out'))
            /\ length out' = length out).
Proof.
  intros Hin Hrun.
  assert (forall b w2,
             input_pdf b = input_pdf a -> output_pdf b = output_pdf a ->
             annotate_pdf b w = (inr tt, w2) ->
             exists out,
               fs w2 !! output_pdf a = Some (File (PdfFile out))
               /\ length out = length pages
               /\ (forall i p,
                     pages !! i = Some p ->
                     exists q painted,
                       out !! i = Some q
                       /\ mediabox_width q = mediabox_width p
                       /\ mediabox_height q = mediabox_height p
                       /\ contents q = contents p ++ painted)) as Hgen.
  { intros b w2 Hi Ho Hb. rewrite <- Hi in Hin.
    destruct (annotate_pdf_returns b w w2 pages Hin Hb)
      as (T & out & w1 & _ & _ & _ & Hres & _ & ->).
    exists out. rewrite <- Ho. simpl. rewrite lookup_insert_eq.
    destruct (pages_result_lookup b _ T pages 0 out Hres) as [Hlen Hall].
    split_and!; [done..|].
    intros i p Hp. destruct (Hall i p Hp) as (q & Hq & Hr).
    apply page_result_inr in Hr
      as [(_ & pl & cl & ov & _ & _ & _ & ->)|(_ & ->)].
    - by exists (merge_page p ov), (contents ov).
    - exists p, []. by rewrite app_nil_r. }
  destruct (Hgen a w' eq_refl eq_refl Hrun) as (out & Hout & Hlen & Hall).
  exists out. split_and!; [done..|].
  intros m w'' Hm.
  destruct (Hgen (with_max_pages a m) w'' eq_refl eq_refl Hm)
    as (out' & Hout' & Hlen' & _).
  exists out'. split; [done|]. by rewrite Hlen'.
Qed.

Lemma output_keeps_the_pages_witness :
  let a := mkArgs tmp_input tmp_output "CC-002" "Controlled Copy"
                  "Copy No: {copy_number}" "Page {number} / {total}"
                  1 (Some 5) (Some 2) in
  let w' := snd (annotate_pdf a (tmp_world 4)) in
  exists out,
    fs w' !! tmp_output = Some (File (PdfFile out))
    /\ length out = 4%nat.
Proof.
  intros a w'.
  destruct (output_keeps_the_pages a (tmp_world 4) w'
              (map sample_page (seq 0 4)))
    as (out & Hout & Hlen & _); [reflexivity|vm_compute; reflexivity|].
  exists out. split; [exact Hout|exact Hlen].
Defined.

(** ** The default templates *)

Lemma default_page_label (n t : Z) :
  Format.format "Page {number} / {total}"
    (<["number" := Format.VInt n]> (<["total" := Format.VInt t]> ∅))
  = inr ("Page " +:+ pretty n +:+ " / " +:+ pretty t).
Proof.
  pose proof (format_template_of
                (<["number" := Format.VInt n]>
                   (<["total" := Format.VInt t]> ∅))
                [Lit "Page "; Hole "number"; Lit " / "; Hole "total"]) as H.
  cbn [substitute] in H.
  rewrite lookup_insert_eq, lookup_insert_ne, lookup_insert_eq in H by done.
  cbn [Format.str] in H. rewrite append_nil_r in H.
  apply H. repeat constructor.
Qed.

Lemma default_copy_label (c : string) :
  Format.format "Copy No: {copy_number}"
    (<["copy_number" := Format.VStr c]> ∅)
  = inr ("Copy No: " +:+ c).
Proof.
  pose proof (format_template_of
                (<["copy_number" := Format.VStr c]> ∅)
                [Lit "Copy No: "; Hole "copy_number"]) as H.
  cbn [substitute] in H. rewrite lookup_insert_eq in H.
  cbn [Format.str] in H. rewrite append_nil_r in H.
  apply H. repeat constructor.
Qed.

(** C4.  When [annotate_pdf] returns, page [i] of the output is annotated
    exactly when [i < processed_page_count]: then it is the input page
    with an overlay merged onto it, where the page label is the page-label
    template formatted with [number = start_number + i] and
    [total = ] the resolved total, and the copy label is the copy-label
    template formatted with [copy_number = ] the copy number; otherwise
    it is the input page itself.  With the default templates the labels
    read [Page <number> / <total>] and [Copy No: <copy number>]. *)
Theorem annotated_pages_and_labels
    (a : args) (w w' : world) (pages : list page) :
  lookup_node (fs w) (input_pdf a) = Some (File (PdfFile pages)) ->
  annotate_pdf a w = (inr tt, w') ->
  exists total out,
    let processed :=
      processed_count (max_pages a) (Z.of_nat (length pages)) in
    resolve_total_pages (total_pages a) (start_number a + processed - 1)
    = inr total
    /\ fs w' !! output_pdf a = Some (File (PdfFile out))
    /\ forall i p,
        pages !! i = Some p ->
        (Z.of_nat i < processed ->
         exists pl cl overlay,
           Format.format (page_label_template a)
             (<["number" := Format.VInt (start_number a + Z.of_nat i)]>
                (<["total" := Format.VInt total]> ∅)) = inr pl
           /\ Format.format (copy_label_template a)
                (<["copy_number" := Format.VStr (copy_number a)]> ∅)
              = inr cl
           /\ _build_overlay_page (mediabox_width p) (mediabox_height p)
                pl cl (watermark_text a) = inr overlay
           /\ map Canvas.text (contents overlay)
              = [cl; pl; watermark_text a]
           /\ out !! i = Some (merge_page p overlay)
           /\ merge_page p overlay <> p
           /\ (page_label_template a = "Page {number} / {total}" ->
               pl = "Page " +:+ pretty (start_number a + Z.of_nat i)
                    +:+ " / " +:+ pretty total)
           /\ (copy_label_template a = "Copy No: {copy_number}" ->
               cl = "Copy No: " +:+ copy_number a))
        /\ (processed <= Z.of_nat i -> out !! i = Some p).
Proof.
  intros Hin Hrun.
  destruct (annotate_pdf_returns a w w' pages Hin Hrun)
    as (T & out & w1 & _ & _ & HT & Hres & _ & ->).
  exists T, out. intros processed. split_and!; [done| |].
  { simpl. by rewrite lookup_insert_eq. }
  destruct (pages_result_lookup a _ T pages 0 out Hres) as [_ Hall].
  intros i p Hp. destruct (Hall i p Hp) as (q & Hq & Hr).
  apply page_result_inr in Hr
    as [(Hlt & pl & cl & ov & Hpl & Hcl & Hov & ->)|(Hge & ->)];
    simpl in *; fold processed in Hlt || fold processed in Hge.
  - split; [|intros ?; lia]. intros _. exists pl, cl, ov.
    destruct (overlay_renders (mediabox_width p) (mediabox_height p)
                pl cl (watermark_text a)) as (ov' & Hov' & _ & _ & Htexts).
    rewrite Hov in Hov'. injection Hov' as <-.
    split_and!; try done.
    + apply merge_page_changes. intros Hnil. by rewrite Hnil in Htexts.
    + intros Htpl. unfold page_label in Hpl.
      rewrite Htpl, default_page_label in Hpl. by injection Hpl as <-.
    + intros Htpl. unfold copy_label in Hcl.
      rewrite Htpl, default_copy_label in Hcl. by injection Hcl as <-.
  - split; [intros ?; lia|done].
Qed.

Lemma annotated_pages_and_labels_witness :
  let a := default_args tmp_input tmp_output "CC-001" in
  let w' := snd (annotate_pdf a (tmp_world 3)) in
  exists out,
    fs w' !! tmp_output = Some (File (PdfFile out))
    /\ forall i p,
        map sample_page (seq 0 3) !! i = Some p ->
        exists overlay,
          _build_overlay_page (mediabox_width p) (mediabox_height p)
            ("Page " +:+ pretty (1 + Z.of_nat i) +:+ " / " +:+ pretty 3)
            ("Copy No: " +:+ "CC-001") "Controlled Copy" = inr overlay
          /\ out !! i = Some (merge_page p overlay).
Proof.
  intros a w'.
  destruct (annotated_pages_and_labels a (tmp_world 3) w'
              (map sample_page (seq 0 3)))
    as (total & out & Htotal & Hout & Hall);
    [reflexivity|vm_compute; reflexivity|].
  injection Htotal as <-.
  exists out. split; [exact Hout|].
  intros i p Hp.
  assert (i < 3)%nat as Hi by (apply lookup_lt_Some in Hp; exact Hp).
  destruct (Hall i p Hp) as [Hann _].
  destruct Hann as (pl & cl & ov & _ & _ & Hov & _ & Hq & _ & Hpl & Hcl);
    [simpl; lia|].
  exists ov. rewrite (Hpl eq_refl), (Hcl eq_refl) in Hov. split; assumption.
Defined.

(** The scenario of the test suite: three pages, copy number CC-001,
    defaults otherwise. *)
Example three_pages_scenario :
  let a := default_args tmp_input tmp_output "CC-001" in
  let r := annotate_pdf a (tmp_world 3) in
  fst r = inr tt
  /\ exists out,
      fs (snd r) !! tmp_output = Some (File (PdfFile out))
      /\ map (fun q => map Canvas.text (contents q)) out
         = [ ["Original content on page 1"; "Copy No: CC-001";
              "Page 1 / 3"; "Controlled Copy"];
             ["Original content on page 2"; "Copy No: CC-001";
              "Page 2 / 3"; "Controlled Copy"];
             ["Original content on page 3"; "Copy No: CC-001";
              "Page 3 / 3"; "Controlled Copy"] ].
Proof.
  split; [vm_compute; reflexivity|].
  eexists. split; vm_compute; reflexivity.
Qed.

(** The second scenario: four pages, [max_pages=2], [total_pages=5]. *)
Example max_pages_scenario :
  let a := mkArgs tmp_input tmp_output "CC-002" "Controlled Copy"
                  "Copy No: {copy_number}" "Page {number} / {total}"
                  1 (Some 5) (Some 2) in
  let r := annotate_pdf a (tmp_world 4) in
  fst r = inr tt
  /\ exists out,
      fs (snd r) !! tmp_output = Some (File (PdfFile out))
      /\ map (fun q => map Canvas.text (contents q)) out
         = [ ["Original content on page 1"; "Copy No: CC-002";
              "Page 1 / 5"; "Controlled Copy"];
             ["Original content on page 2"; "Copy No: CC-002";
              "Page 2 / 5"; "Controlled Copy"];
             ["Original content on page 3"];
             ["Original content on page 4"] ].
Proof.
  split; [vm_compute; reflexivity|].
  eexists. split; vm_compute; reflexivity.
Qed.

(** ** The events of the loop *)


Lemma loop_events_merge (processed : Z) (n : nat) :
  forall index i,
    EvMergePage i ∈ loop_events processed index n ->
    Z.of_nat i < processed.
Proof.
  induction n as [|n IH]; intros index i; simpl.
  - by intros ?%elem_of_nil.
  - intros [Hturn|Hrest]%elem_of_app; [|by eapply IH].
    unfold turn_events in Hturn.
    destruct (Z.ltb_spec (Z.of_nat index) processed) as [Hlt|Hge].
    + apply elem_of_cons in Hturn as [[= ->]|Hturn]; [done|].
      by apply list_elem_of_singleton in Hturn.
    + by apply list_elem_of_singleton in Hturn.
Qed.


Lemma mkdir_events_no_merge (evs : list event) (i : nat) :
  Forall is_mkdir_event evs -> EvMergePage i ∉ evs.
Proof.
  intros Hall Hin. rewrite Forall_forall in Hall.
  by apply (Hall (EvMergePage i)).
Qed.

(** The log of a call that returns: the events of the loop, directories
    made, the opening and the writing of the destination. *)
Lemma annotate_pdf_returns_log
    (a : args) (w w' : world) (pages : list page) :
  lookup_node (fs w) (input_pdf a) = Some (File (PdfFile pages)) ->
  annotate_pdf a w = (inr tt, w') ->
  exists dirs,
    Forall is_mkdir_event dirs
    /\ log w'
       = log w
         ++ loop_events
              (processed_count (max_pages a) (Z.of_nat (length pages)))
              0 (length pages)
         ++ dirs
         ++ [EvOpenWrite (output_pdf a); EvWrite (output_pdf a)].
Proof.
  intros Hin Hrun.
  destruct (annotate_pdf_returns a w w' pages Hin Hrun)
    as (T & out & w1 & _ & _ & _ & _ & [_ (dirs & Hlog & Hdirs)] & ->).
  exists dirs. split; [done|]. simpl in *. rewrite Hlog.
  by rewrite <- !app_assoc.
Qed.

(** C5, as the program has it.  When [annotate_pdf] returns, a page with
    index [>= processed_page_count] is in the output as it is in the
    input: no overlay is merged onto it, and its text is the text of the
    source page.  It holds a watermark, copy label or page label string
    only if the source page held it. *)
Theorem pages_beyond_the_limit_pass_through
    (a : args) (w w' : world) (pages : list page) :
  lookup_node (fs w) (input_pdf a) = Some (File (PdfFile pages)) ->
  annotate_pdf a w = (inr tt, w') ->
  exists out,
    fs w' !! output_pdf a = Some (File (PdfFile out))
    /\ forall i p,
        pages !! i = Some p ->
        processed_count (max_pages a) (Z.of_nat (length pages))
        <= Z.of_nat i ->
        out !! i = Some p
        /\ (forall evs, log w' = log w ++ evs -> EvMergePage i ∉ evs)
        /\ (forall q s,
              out !! i = Some q ->
              extract_text q = extract_text p
              /\ (str_in s (extract_text q) = true ->
                  str_in s (extract_text p) = true)).
Proof.
  intros Hin Hrun.
  destruct (annotate_pdf_returns_log a w w' pages Hin Hrun)
    as (dirs & Hdirs & Hlog).
  destruct (annotate_pdf_returns a w w' pages Hin Hrun)
    as (T & out & w1 & _ & _ & _ & Hres & _ & Hw').
  exists out. split.
  { rewrite Hw'. simpl. by rewrite lookup_insert_eq. }
  destruct (pages_result_lookup a _ T pages 0 out Hres) as [_ Hall].
  intros i p Hp Hge. destruct (Hall i p Hp) as (q & Hq & Hr).
  apply page_result_inr in Hr as [(Hlt & _)|(_ & ->)]; [simpl in Hlt; lia|].
  split_and!; [done| |].
  - intros evs Hevs. rewrite Hlog in Hevs.
    apply app_inv_head in Hevs as <-.
    intros [Hloop|[Hd|Hw]%elem_of_app]%elem_of_app.
    + apply loop_events_merge in Hloop. lia.
    + by apply (mkdir_events_no_merge dirs i).
    + apply elem_of_cons in Hw as [[=]|Hw].
      by apply list_elem_of_singleton in Hw.
  - intros q' s Hq'. rewrite Hq in Hq'. by injection Hq' as <-.
Qed.

Lemma pages_beyond_the_limit_pass_through_witness :
  let a := mkArgs tmp_input tmp_output "CC-002" "Controlled Copy"
                  "Copy No: {copy_number}" "Page {number} / {total}"
                  1 (Some 5) (Some 2) in
  let w' := snd (annotate_pdf a (tmp_world 4)) in
  exists out,
    fs w' !! tmp_output = Some (File (PdfFile out))
    /\ out !! 2%nat = Some (sample_page 2)
    /\ out !! 3%nat = Some (sample_page 3).
Proof.
  intros a w'.
  destruct (pages_beyond_the_limit_pass_through a (tmp_world 4) w'
              (map sample_page (seq 0 4)))
    as (out & Hout & Hall); [reflexivity|vm_compute; reflexivity|].
  exists out. split; [exact Hout|]. split.
  - apply (Hall 2%nat (sample_page 2)); [reflexivity|simpl; lia].
  - apply (Hall 3%nat (sample_page 3)); [reflexivity|simpl; lia].
Defined.

(** C5 as stated fails: a page beyond the limit whose source
    already carries the watermark text carries it in the output too. *)
Lemma page_beyond_the_limit_with_watermark_text :
  let a := with_max_pages (default_args tmp_input tmp_output "CC-001")
                          (Some 1) in
  let r := annotate_pdf a stamped_world in
  fst r = inr tt
  /\ processed_count (max_pages a) 2 <= 1
  /\ exists out q,
      fs (snd r) !! tmp_output = Some (File (PdfFile out))
      /\ out !! 1%nat = Some q
      /\ str_in (watermark_text a) (extract_text q) = true.
Proof.
  split_and!; [vm_compute; reflexivity|simpl; lia|].
  eexists _, _. split_and!; vm_compute; reflexivity.
Qed.


(** ** Every way a call can end *)







(** C9.  The overlay for a page of width [w] and height [h] holds three
    strings.  The copy label ends at [(w - 43.2, h - 43.2)], in
    Helvetica-Bold 14, black.  The page label is centred on
    [(w / 2, 21.6)], in Helvetica 12, black.  The watermark is centred on
    the origin of a coordinate system moved to [(w / 2, h / 2)] and then
    turned by 45 degrees counter-clockwise, in Helvetica-Bold of size
    [min(w, h) * 0.1], filled with the grey (0.7, 0.7, 0.7) at opacity
    0.2. *)
Theorem overlay_layout (w h : Q) (pl cl watermark : string) :
  exists copy number mark,
    _build_overlay_page w h pl cl watermark
    = inr (mkPage w h [copy; number; mark])
    /\ (Canvas.text copy = cl
        /\ Canvas.text_anchor copy = Canvas.AnchorEnd
        /\ Canvas.at_x copy == w - 43.2
        /\ Canvas.at_y copy == h - 43.2
        /\ Canvas.font_name (Canvas.painted_with copy) = "Helvetica-Bold"
        /\ Canvas.font_size (Canvas.painted_with copy) == 14
        /\ Canvas.fill_color (Canvas.painted_with copy) = Canvas.black
        /\ Canvas.ctm (Canvas.painted_with copy) = [])
    /\ (Canvas.text number = pl
        /\ Canvas.text_anchor number = Canvas.AnchorMiddle
        /\ Canvas.at_x number == w / 2
        /\ Canvas.at_y number == 21.6
        /\ Canvas.font_name (Canvas.painted_with number) = "Helvetica"
        /\ Canvas.font_size (Canvas.painted_with number) == 12
        /\ Canvas.fill_color (Canvas.painted_with number) = Canvas.black
        /\ Canvas.ctm (Canvas.painted_with number) = [])
    /\ (Canvas.text mark = watermark
        /\ Canvas.text_anchor mark = Canvas.AnchorMiddle
        /\ Canvas.at_x mark == 0
        /\ Canvas.at_y mark == 0
        /\ (exists dx dy,
              Canvas.ctm (Canvas.painted_with mark)
              = [Canvas.Rotate 45; Canvas.Translate dx dy]
              /\ dx == w / 2 /\ dy == h / 2)
        /\ Canvas.font_name (Canvas.painted_with mark) = "Helvetica-Bold"
        /\ Canvas.font_size (Canvas.painted_with mark) == Qmin w h * 0.1
        /\ (let fill := Canvas.fill_color (Canvas.painted_with mark) in
            Canvas.red fill == 0.7 /\ Canvas.green fill == 0.7
            /\ Canvas.blue fill == 0.7 /\ Canvas.alpha fill == 0.2)).
Proof.
  eexists _, _, _. split; [reflexivity|]. cbn.
  split_and!; try reflexivity.
  eexists _, _. split_and!; reflexivity.
Qed.

(** ** [max_pages] and the loop *)

Lemma annotate_pages_max_pages (a : args) (m : option Z)
    (processed total : Z) (pages : list page) :
  forall index writer w,
    annotate_pages (with_max_pages a m) processed total index pages writer w
    = annotate_pages a processed total index pages writer w.
Proof.
  induction pages as [|p rest IH]; intros index writer w; [done|].
  simpl. unfold bind.
  change (annotate_page (with_max_pages a m) processed total index p w)
    with (annotate_page a processed total index p w).
  destruct (annotate_page a processed total index p w) as [[e|q] w1];
    [done|].
  destruct (record (EvAddPage index) w1) as [[e|[]] w2]; [done|].
  apply IH.
Qed.

(** C10, as the program has it.  A call with [max_pages = m], where
    [m >= 1] and [m] is at least the page count of the input, does what
    the same call without [max_pages] does: the same result and the same
    world after it. *)
Theorem max_pages_beyond_the_page_count
    (a : args) (w : world) (m : Z) :
  1 <= m ->
  (forall pages,
      lookup_node (fs w) (input_pdf a) = Some (File (PdfFile pages)) ->
      Z.of_nat (length pages) <= m) ->
  annotate_pdf (with_max_pages a (Some m)) w
  = annotate_pdf (with_max_pages a None) w.
Proof.
  intros Hm Hn.
  destruct (lookup_node (fs w) (input_pdf a)) as [[|[pages|bytes]]|] eqn:Hin.
  1,3,4: destruct (annotate_pdf_unreadable a w) as (e & He & _);
    [intros pages; by rewrite Hin|];
    unfold with_max_pages; by rewrite !He.
  specialize (Hn pages eq_refl).
  rewrite (annotate_pdf_readable (with_max_pages a (Some m)) w pages Hin).
  rewrite (annotate_pdf_readable (with_max_pages a None) w pages Hin).
  simpl. destruct (start_number a <? 1); [done|].
  destruct (Z.ltb_spec m 1) as [?|_]; [lia|].
  rewrite Z.min_r by lia.
  destruct (resolve_total_pages (total_pages a) _) as [|T]; [done|].
  unfold bind. by rewrite !annotate_pages_max_pages.
Qed.

Lemma max_pages_beyond_the_page_count_witness :
  let a := default_args tmp_input tmp_output "CC-001" in
  annotate_pdf (with_max_pages a (Some 7)) (tmp_world 3)
  = annotate_pdf (with_max_pages a None) (tmp_world 3).
Proof.
  intros a.
  apply (max_pages_beyond_the_page_count a (tmp_world 3) 7); [lia|].
  intros pages Hin. vm_compute in Hin. injection Hin as <-. simpl. lia.
Defined.

(** C10 as stated fails: for a document without pages,
    [max_pages = 0] is at least the page count, yet the call raises,
    while the call without [max_pages] returns. *)
Lemma max_pages_zero_on_empty_document :
  let a := default_args tmp_input tmp_output "CC-001" in
  0 <= Z.of_nat (length (@nil page))
  /\ lookup_node (fs (tmp_world 0)) (input_pdf a)
     = Some (File (PdfFile []))
  /\ fst (annotate_pdf (with_max_pages a (Some 0)) (tmp_world 0))
     = inl (ValueError "max_pages must be a positive integer")
  /\ fst (annotate_pdf (with_max_pages a None) (tmp_world 0)) = inr tt.
Proof.
  split_and!; [simpl; lia|reflexivity|vm_compute; reflexivity..].
Qed.

(** ** Placeholders *)







(** ** Calls that return *)

(** Whether a template formats depends on which names have a value, not
    on the values. *)
Lemma scan_keys (kwargs kwargs' : gmap string Format.value) (s : string) :
  (forall k, is_Some (kwargs !! k) -> is_Some (kwargs' !! k)) ->
  forall (m : Format.mode) (out : string),
    Format.scan kwargs m s = inr out ->
    exists out', Format.scan kwargs' m s = inr out'.
Proof.
  intros Hkeys. induction s as [|c s IH]; intros m out H.
  - destruct m; simpl in *; [eauto|done..].
  - destruct m as [| |fresh name]; simpl in H |- *.
    + destruct (c =? "{")%char; [by eapply IH|].
      destruct (c =? "}")%char; [by eapply IH|].
      apply emit_inr in H as (t & Ht & ->).
      destruct (IH _ _ Ht) as (t' & ->). simpl. eauto.
    + destruct (c =? "}")%char; [|done].
      apply emit_inr in H as (t & Ht & ->).
      destruct (IH _ _ Ht) as (t' & ->). simpl. eauto.
    + destruct (c =? "{")%char.
      { destruct fresh; [|done].
        apply emit_inr in H as (t & Ht & ->).
        destruct (IH _ _ Ht) as (t' & ->). simpl. eauto. }
      destruct (c =? "}")%char;
        [|destruct (Format.leaves_fragment c); [done|by eapply IH]].
      unfold Format.get_field in *.
      destruct (Format.all_digits name).
      { by destruct (_ <? _). }
      destruct (kwargs !! name) as [v|] eqn:Hv; [|done].
      destruct (Hkeys name) as [v' ->]; [by eexists|].
      apply emit_inr in H as (t & Ht & ->).
      destruct (IH _ _ Ht) as (t' & ->). simpl. eauto.
Qed.

Lemma page_label_any_numbers (a : args) (n t n' t' : Z) (out : string) :
  page_label a n t = inr out -> exists out', page_label a n' t' = inr out'.
Proof.
  unfold page_label, Format.format. apply scan_keys.
  intros k [v Hk]. destruct (decide (k = "number")) as [->|Hn].
  { rewrite lookup_insert_eq. by eexists. }
  rewrite lookup_insert_ne in Hk |- * by done.
  destruct (decide (k = "total")) as [->|Ht].
  { rewrite lookup_insert_eq. by eexists. }
  by rewrite lookup_insert_ne, lookup_empty in Hk.
Qed.

(** A loop whose templates format goes through every page. *)
Lemma pages_result_total (a : args) (processed total : Z)
    (pl cl : string) (pages : list page) :
  page_label a 0 0 = inr pl ->
  copy_label a = inr cl ->
  forall index,
    exists out, pages_result a processed total index pages = inr out.
Proof.
  intros Hpl Hcl. induction pages as [|p rest IH]; intros index; simpl.
  - by eexists.
  - assert (exists q, page_result a processed total index p = inr q)
      as [q ->].
    { unfold page_result. destruct (_ <? _); [|by eexists].
      destruct (page_label_any_numbers a 0 0
                  (start_number a + Z.of_nat index) total pl Hpl)
        as (pl' & ->).
      rewrite Hcl. unfold bind_exn.
      destruct (overlay_renders (mediabox_width p) (mediabox_height p)
                  pl' cl (watermark_text a)) as (ov & -> & _).
      by eexists. }
    destruct (IH (S index)) as (qs & ->). simpl. by eexists.
Qed.

Lemma mkdir_parents_existing (d : path) (w : world) :
  is_dir (fs w) d = true -> mkdir_parents d w = (inr tt, w).
Proof.
  intros Hd. unfold mkdir_parents.
  destruct (rev d) as [|c rp] eqn:Hrev; [done|].
  cbn [mkdir_parents_rev]. rewrite <- Hrev, rev_involutive.
  unfold try_except, os_mkdir, bind, get_fs, raise, ret.
  unfold is_dir in Hd.
  destruct (lookup_node (fs w) d) as [[|?]|] eqn:Hl; [|done..].
  unfold is_dir. by rewrite Hl.
Qed.

(** Writing into a directory that exists, at a path that is not a
    directory, succeeds and touches the destination only. *)
Lemma write_output_into_directory (p : path) (writer : list page) (w : world) :
  is_dir (fs w) (parent p) = true ->
  lookup_node (fs w) p <> Some Dir ->
  write_output p writer w
  = (inr tt,
     mkWorld (<[p := File (PdfFile writer)]>
                (<[p := File (RawFile "")]> (fs w)))
             (log w ++ [EvOpenWrite p; EvWrite p])).
Proof.
  intros Hparent Hp. unfold write_output, bind.
  rewrite (mkdir_parents_existing _ _ Hparent).
  unfold open_wb, write_pdf, bind, get_fs, raise, record, put_fs.
  unfold is_dir in Hparent.
  destruct (lookup_node (fs w) (parent p)) as [[|?]|]; [|done..].
  destruct (lookup_node (fs w) p) as [[|?]|]; [done|..]; simpl;
    by rewrite <- app_assoc.
Qed.

(** With a document at the input path, arguments that pass the checks,
    templates that format, and a destination in an existing directory,
    [annotate_pdf] returns; the loop went over every page, and the
    destination holds as many pages as the input. *)
Lemma annotate_pdf_succeeds
    (a : args) (w : world) (pages : list page) (pl cl : string) :
  lookup_node (fs w) (input_pdf a) = Some (File (PdfFile pages)) ->
  1 <= start_number a ->
  match max_pages a with Some m => 1 <= m | None => True end ->
  let processed :=
    processed_count (max_pages a) (Z.of_nat (length pages)) in
  match total_pages a with
  | Some t => start_number a + processed - 1 <= t
  | None => True
  end ->
  page_label a 0 0 = inr pl ->
  copy_label a = inr cl ->
  is_dir (fs w) (parent (output_pdf a)) = true ->
  lookup_node (fs w) (output_pdf a) <> Some Dir ->
  exists out,
    length out = length pages
    /\ annotate_pdf a w
       = (inr tt,
          mkWorld (<[output_pdf a := File (PdfFile out)]>
                     (<[output_pdf a := File (RawFile "")]> (fs w)))
                  (log w ++ loop_events processed 0 (length pages)
                   ++ [EvOpenWrite (output_pdf a);
                       EvWrite (output_pdf a)])).
Proof.
  intros Hin Hstart Hmax processed Htotal Hpl Hcl Hparent Hout.
  assert (processed_page_count (max_pages a) (Z.of_nat (length pages))
          = inr processed) as HP.
  { unfold processed_page_count, processed, processed_count.
    destruct (max_pages a) as [m|]; [|done].
    by destruct (Z.ltb_spec m 1); [lia|]. }
  set (T := match total_pages a with
            | Some t => t
            | None => start_number a + processed - 1
            end).
  assert (resolve_total_pages (total_pages a)
            (calculated_total (start_number a) processed) = inr T) as HT.
  { unfold resolve_total_pages, calculated_total, T.
    destruct (total_pages a) as [t|]; [|done].
    by destruct (Z.ltb_spec t (start_number a + processed - 1)); [lia|]. }
  destruct (pages_result_total a processed T pl cl pages Hpl Hcl 0%nat)
    as (out & Hres).
  exists out. split.
  { by destruct (pages_result_lookup a processed T pages 0 out Hres). }
  rewrite (annotate_pdf_loop_ok a w pages processed T Hin
             ltac:(lia) HP HT out Hres).
  rewrite write_output_into_directory by done. simpl.
  by rewrite <- app_assoc.
Qed.

(** * Further properties of the program *)

(** ** The input file *)

(** X1.  When nothing lies at the input path, [annotate_pdf] raises
    [FileNotFoundError] naming the path, before it looks at any other
    argument (also when [start_number < 1]), and changes nothing. *)
Theorem missing_input_raises_first (a : args) (w : world) :
  lookup_node (fs w) (input_pdf a) = None ->
  annotate_pdf a w
  = (inl (FileNotFoundError
            ("Input PDF does not exist: " +:+ path_str (input_pdf a))),
     w).
Proof.
  intros Hin.
  unfold annotate_pdf, path_exists, get_fs, ret, raise, bind. simpl.
  by rewrite Hin.
Qed.

Lemma missing_input_raises_first_witness :
  let a := mkArgs ["tmp"; "absent.pdf"] tmp_output "CC-001"
                  "Controlled Copy" "Copy No: {copy_number}"
                  "Page {number} / {total}" 0 None (Some 0) in
  annotate_pdf a (tmp_world 3)
  = (inl (FileNotFoundError "Input PDF does not exist: /tmp/absent.pdf"),
     tmp_world 3).
Proof.
  intros a. apply (missing_input_raises_first a (tmp_world 3)). reflexivity.
Defined.

(** X2.  When the input path holds a directory or a file that is not a
    PDF document, the check of [start_number] still comes first: the call
    raises its [ValueError] when [start_number < 1], and the error of
    opening or reading otherwise.  [max_pages] and [total_pages] are not
    looked at, and nothing changes. *)
Theorem unreadable_input_after_start_number
    (a : args) (w : world) (n : node) :
  lookup_node (fs w) (input_pdf a) = Some n ->
  (forall pages, n <> File (PdfFile pages)) ->
  annotate_pdf a w
  = (inl (if start_number a <? 1
          then ValueError "start_number must be at least 1"
          else match n with
               | Dir => IsADirectoryError
               | File _ => PdfReadError
               end),
     w).
Proof.
  intros Hin Hn.
  unfold annotate_pdf, path_exists, PdfReader, get_fs, ret, raise, bind.
  simpl. rewrite Hin. simpl.
  destruct (start_number a <? 1); [done|]. rewrite Hin.
  destruct n as [|[pages|bytes]]; [done| |done]. by destruct (Hn pages).
Qed.

Lemma unreadable_input_after_start_number_witness :
  let a := with_max_pages (default_args tmp_input tmp_output "CC-001")
                          (Some 0) in
  annotate_pdf a garbage_world = (inl PdfReadError, garbage_world).
Proof.
  intros a.
  apply (unreadable_input_after_start_number a garbage_world
           (File (RawFile "not a PDF"))); [reflexivity|discriminate].
Defined.

(** ** Making directories *)














(** ** Calls whose checks pass and whose templates format *)

Section Ready.

Variables (a : args) (w : world) (pages : list page) (pl cl : string).

Hypothesis readable :
  lookup_node (fs w) (input_pdf a) = Some (File (PdfFile pages)).
Hypothesis start_ok : 1 <= start_number a.
Hypothesis max_ok :
  match max_pages a with Some m => 1 <= m | None => True end.
Hypothesis total_ok :
  match total_pages a with
  | Some t =>
      start_number a
      + processed_count (max_pages a) (Z.of_nat (length pages)) - 1 <= t
  | None => True
  end.
Hypothesis page_label_ok : page_label a 0 0 = inr pl.
Hypothesis copy_label_ok : copy_label a = inr cl.


End Ready.



(** ** What a call leaves alone *)




(** ** Destinations that cannot be written *)





(** ** Annotating in place, and annotating again *)






(** ** The total and the page numbers *)

Lemma annotate_pages_total_pages (a : args) (t : option Z)
    (processed total : Z) (pages : list page) :
  forall index writer w,
    annotate_pages (with_total_pages a t) processed total index pages
      writer w
    = annotate_pages a processed total index pages writer w.
Proof.
  induction pages as [|p rest IH]; intros index writer w; [done|].
  simpl. unfold bind.
  change (annotate_page (with_total_pages a t) processed total index p w)
    with (annotate_page a processed total index p w).
  destruct (annotate_page a processed total index p w) as [[e|q] w1];
    [done|].
  destruct (record (EvAddPage index) w1) as [[e|[]] w2]; [done|].
  apply IH.
Qed.

(** X9.  Giving [total_pages] the value it has by default,
    [start_number + processed_page_count - 1], is the same as leaving it
    out: the two calls end the same way, in the same world. *)
Theorem explicit_default_total (a : args) (w : world) (pages : list page) :
  lookup_node (fs w) (input_pdf a) = Some (File (PdfFile pages)) ->
  annotate_pdf
    (with_total_pages a
       (Some (start_number a
              + processed_count (max_pages a) (Z.of_nat (length pages))
              - 1))) w
  = annotate_pdf (with_total_pages a None) w.
Proof.
  intros Hin.
  rewrite (annotate_pdf_readable (with_total_pages a (Some _)) w pages Hin).
  rewrite (annotate_pdf_readable (with_total_pages a None) w pages Hin).
  simpl. destruct (start_number a <? 1); [done|].
  destruct (processed_page_count (max_pages a) (Z.of_nat (length pages)))
    as [e|P] eqn:HP; [done|].
  apply processed_page_count_inr in HP as [-> _].
  unfold calculated_total. rewrite Z.ltb_irrefl.
  unfold bind. by rewrite !annotate_pages_total_pages.
Qed.

Lemma explicit_default_total_witness :
  let a := with_max_pages (default_args tmp_input tmp_output "CC-002")
                          (Some 2) in
  annotate_pdf (with_total_pages a (Some 2)) (tmp_world 4)
  = annotate_pdf (with_total_pages a None) (tmp_world 4).
Proof.
  intros a.
  apply (explicit_default_total a (tmp_world 4) (map sample_page (seq 0 4))).
  reflexivity.
Defined.

(** X10.  When [annotate_pdf] returns, the number of annotated pages is
    between 0 and the page count, and at least 1 when the document has a
    page; every annotated page carries a number between [start_number]
    (so at least 1) and the total its label is formatted with; and
    without [total_pages] the last annotated page carries the total. *)
Theorem page_numbers_within_total
    (a : args) (w w' : world) (pages : list page) :
  lookup_node (fs w) (input_pdf a) = Some (File (PdfFile pages)) ->
  annotate_pdf a w = (inr tt, w') ->
  exists total,
    let processed :=
      processed_count (max_pages a) (Z.of_nat (length pages)) in
    resolve_total_pages (total_pages a) (start_number a + processed - 1)
    = inr total
    /\ 0 <= processed <= Z.of_nat (length pages)
    /\ (pages <> [] -> 1 <= processed)
    /\ (forall i p,
          pages !! i = Some p ->
          Z.of_nat i < processed ->
          1 <= start_number a <= start_number a + Z.of_nat i
          /\ start_number a + Z.of_nat i <= total
          /\ exists pl,
              page_label a (start_number a + Z.of_nat i) total = inr pl)
    /\ (total_pages a = None ->
        start_number a + (processed - 1) = total).
Proof.
  intros Hin Hrun.
  destruct (annotate_pdf_returns a w w' pages Hin Hrun)
    as (T & out & w1 & Hstart & Hmax & HT & Hres & _ & _).
  exists T. intros processed. fold processed in HT, Hres.
  assert (0 <= processed <= Z.of_nat (length pages)) as Hbound.
  { unfold processed, processed_count. destruct (max_pages a); lia. }
  pose proof (resolve_total_pages_inr _ _ _ HT) as HT'.
  unfold calculated_total in HT'.
  split_and!; [done|lia..| | |].
  - intros Hne. unfold processed, processed_count.
    destruct pages; [done|]. simpl length. destruct (max_pages a); lia.
  - intros i p Hp Hlt.
    destruct (pages_result_lookup a processed T pages 0 out Hres)
      as [_ Hall].
    destruct (Hall i p Hp) as (q & _ & Hq).
    apply page_result_inr in Hq as [(_ & pl & _ & _ & Hpl & _)|(Hge & _)];
      [|simpl in Hge; lia].
    split_and!; [lia..| |by exists pl].
    destruct (total_pages a); lia.
  - intros Hnone. rewrite Hnone in HT'. lia.
Qed.

Lemma page_numbers_within_total_witness :
  let a := mkArgs tmp_input tmp_output "CC-002" "Controlled Copy"
                  "Copy No: {copy_number}" "Page {number} / {total}"
                  1 (Some 5) (Some 2) in
  exists total,
    resolve_total_pages (total_pages a) (1 + 2 - 1) = inr total
    /\ 1 <= 1 + 1 /\ 1 + 1 <= total.
Proof.
  intros a.
  destruct (page_numbers_within_total a (tmp_world 4)
              (snd (annotate_pdf a (tmp_world 4)))
              (map sample_page (seq 0 4)))
    as (total & Htotal & _ & _ & Hall & _);
    [reflexivity|vm_compute; reflexivity|].
  exists total. split; [exact Htotal|].
  destruct (Hall 1%nat (sample_page 1)) as ([_ H1] & H2 & _);
    [reflexivity|simpl; lia|].
  split; [exact H1|exact H2].
Defined.

(** ** Errors of the templates come on the first page *)






(** ** Placeholders without a name *)





(** ** Text on a page *)













(** ** The tests of the repository, for every page count *)




Lemma sample_pages_lookup (n i : nat) (p : page) :
  map sample_page (seq 0 n) !! i = Some p ->
  p = sample_page i /\ (i < n)%nat.
Proof.
  intros H. pose proof (lookup_lt_Some _ _ _ H) as Hlt.
  rewrite length_map, length_seq in Hlt.
  rewrite list_lookup_fmap, lookup_seq_lt in H by done.
  simpl in H. by injection H as <-.
Qed.






